(** * backup_system.py: a shallow embedding and its verified properties

    The development follows [src/backup_system.py]: the exclusion filter
    ([should_exclude]), the archive identifiers ([get_backup_filename]), the
    catalog scan ([list_backups]), retention trimming ([cleanup_old_backups]),
    snapshot creation ([create_backup]) and restore ([restore_backup]).

    Conventions of the model.
    - Strings are byte strings; [os.path.join a b] is [a + "/" + b] (POSIX
      separator, [b] a plain entry name).
    - Every configured location is given, as in the source's [CONFIG], relative
      to the directory of the script, so [os.path.relpath p script_dir] is the
      list of components stored in the configuration.
    - The backup root, the content tree and the configuration files are
      disjoint locations (as [backups/], [content/], [config.yaml] and
      [netlify.toml] are in the source); the file system is the triple of
      their states.
    - A directory is the list of its entries in the order [os.listdir]
      returns them; entry names are unique, and a new entry is listed last.
    - [time.time()] is an integer count of microseconds; only its order and
      its integer part are ever used.
    - A metadata file that parses holds a JSON object whose [timestamp],
      when present, is a number; a file holding any other JSON value is
      outside the model. The members of a zip archive are regular files;
      directory entries of an archive are not represented. *)

From Stdlib Require Import List String Ascii ZArith NArith Arith Lia Bool.
From Stdlib Require Import Sorting.Sorted Permutation.
From Stdlib Require Import Numbers.DecimalString.
Import ListNotations.

Set Warnings "-register-all,-abstract-large-number".

Open Scope string_scope.
Open Scope list_scope.

(** String concatenation, Python's [+] on [str]; [++] is kept for lists. *)
Infix "+++" := String.append (right associativity, at level 60).

(** ** Strings *)

Module Str.

(** Python's [pattern in path] on strings: does [pattern] occur at some
    position of [path]? The empty pattern occurs in every string. *)
Fixpoint contains (pattern path : string) : bool :=
  if String.prefix pattern path then true
  else match path with
       | EmptyString => false
       | String _ rest => contains pattern rest
       end.

(** Python's [s.endswith(suffix)]: some tail of [s] is [suffix]. *)
Fixpoint endswith (s suffix : string) : bool :=
  if s =? suffix then true
  else match s with
       | EmptyString => false
       | String _ rest => endswith rest suffix
       end.

(** Python's [s[:-k]] for [0 < k]. *)
Definition drop_last (k : nat) (s : string) : string :=
  String.substring 0 (String.length s - k) s.

(** Python's [s.lower()] on ASCII letters. *)
Definition lower_ascii (c : ascii) : ascii :=
  let n := nat_of_ascii c in
  if ((65 <=? n) && (n <=? 90))%nat then ascii_of_nat (n + 32) else c.

Fixpoint lower (s : string) : string :=
  match s with
  | EmptyString => EmptyString
  | String c rest => String (lower_ascii c) (lower rest)
  end.

(** The specification side of [contains]: [t] is a substring of [p]. *)
Definition occurs_in (t p : string) : Prop :=
  exists pre post, p = pre +++ t +++ post.

End Str.

(** ** Configuration *)

(** A location below the script directory, as its list of components. *)
Definition path := list string.

Record config := {
  script_dir : string;            (* os.path.dirname(__file__) *)
  backup_dir : path;
  content_dir : path;
  config_files : list path;
  log_file : path;
  max_backups : Z;
  backup_interval : Z;
  compress : bool;
  exclude_patterns : list string
}.

(** The module-level [CONFIG] of the source. *)
Definition CONFIG (here : string) : config := {|
  script_dir := here;
  backup_dir := ["backups"];
  content_dir := ["content"];
  config_files := [["config.yaml"]; ["netlify.toml"]];
  log_file := ["backup.log"];
  max_backups := 30;
  backup_interval := 24;
  compress := true;
  exclude_patterns := [".git"; "__pycache__"; "*.pyc"; "*.log"; "backups"]
|}.

Definition os_path_join (a b : string) : string := a +++ "/" +++ b.

(** The path string of a location: the script directory joined with each
    component in turn. *)
Definition path_str (cfg : config) (p : path) : string :=
  fold_left os_path_join p (script_dir cfg).

(** ** PathFilter: [should_exclude] *)

Fixpoint should_exclude_loop (patterns : list string) (path : string) : bool :=
  match patterns with
  | [] => false
  | pattern :: rest =>
      if Str.contains pattern path then true
      else should_exclude_loop rest path
  end.

Definition should_exclude (cfg : config) (path : string) : bool :=
  should_exclude_loop (exclude_patterns cfg) path.

(** ** Archive identifiers: [get_backup_filename] *)

(** A reading of [datetime.datetime.now()]. *)
Record datetime := {
  year : N;
  month : N;
  day : N;
  hour : N;
  minute : N;
  second : N;
  microsecond : N
}.

(** The readings for which [strftime] pads every field to a fixed width:
    a four-digit year and the calendar ranges of the other fields. *)
Definition datetime_ok (d : datetime) : bool :=
  ((1000 <=? year d) && (year d <=? 9999) &&
   (1 <=? month d) && (month d <=? 12) &&
   (1 <=? day d) && (day d <=? 31) &&
   (hour d <=? 23) && (minute d <=? 59) && (second d <=? 59) &&
   (microsecond d <=? 999999))%N.

Definition digit (n : N) : ascii := ascii_of_N (48 + n).

(** [n] in decimal on exactly [width] digits, zero padded. *)
Fixpoint zfill (width : nat) (n : N) : string :=
  match width with
  | O => ""
  | S w => zfill w (n / 10) +++ String (digit (n mod 10)) ""
  end.

(** [now.strftime('%Y%m%d_%H%M%S')] *)
Definition strftime_Ymd_HMS (now : datetime) : string :=
  zfill 4 (year now) +++ zfill 2 (month now) +++ zfill 2 (day now) +++ "_" +++
  zfill 2 (hour now) +++ zfill 2 (minute now) +++ zfill 2 (second now).

(** [get_backup_filename()], with the clock reading it takes as argument. *)
Definition get_backup_filename (now : datetime) : string :=
  let timestamp := strftime_Ymd_HMS now in
  "backup_" +++ timestamp.

(** Lexicographic comparison of lists of numbers. *)
Fixpoint lex_compare (a b : list N) : comparison :=
  match a, b with
  | [], [] => Eq
  | [], _ :: _ => Lt
  | _ :: _, [] => Gt
  | x :: a', y :: b' =>
      match N.compare x y with
      | Eq => lex_compare a' b'
      | c => c
      end
  end.

(** A reading truncated to whole seconds, and in full. *)
Definition to_second (d : datetime) : list N :=
  [year d; month d; day d; hour d; minute d; second d].

Definition to_microsecond (d : datetime) : list N :=
  to_second d ++ [microsecond d].

(** [d1] is a strictly earlier reading than [d2]. *)
Definition earlier (d1 d2 : datetime) : Prop :=
  lex_compare (to_microsecond d1) (to_microsecond d2) = Lt.

(** [d1] lies in a strictly earlier clock second than [d2]. *)
Definition earlier_second (d1 d2 : datetime) : Prop :=
  lex_compare (to_second d1) (to_second d2) = Lt.

Definition same_second (d1 d2 : datetime) : Prop :=
  to_second d1 = to_second d2.

(** Strict order of identifiers as sortable strings. *)
Definition str_lt (a b : string) : Prop := String.compare a b = Lt.


(** ** Exceptions and results *)

Inductive exn :=
| ValueError (msg : string)
| KeyError (key : string)
| FileNotFoundError
| FileExistsError
| IsADirectoryError
| NotADirectoryError
| BadZipFile
| ShutilError.

Inductive Result (A : Type) :=
| Ok (a : A)
| Raise (e : exn).

Arguments Ok {A} a.
Arguments Raise {A} e.

(** ** Files and directories *)

(** The metadata record of one archive, as [json.load] returns it. The
    listing reads [metadata['timestamp']] with a subscript, so a document
    without that key is kept apart ([md_timestamp = None]). [md_datetime]
    is the clock reading whose ISO text the source stores. *)
Record metadata := {
  md_name : string;
  md_timestamp : option Z;
  md_datetime : datetime;
  md_description : string;
  md_content_size : N;
  md_file_count : N
}.

(** A regular file, by what its readers make of it: plain bytes, a JSON
    document that parses to a metadata record, or a zip archive with its
    members (archive name and payload). Written JSON and zip files carry
    their length, which the model does not compute. *)
Inductive file :=
| Raw (bytes : string)
| Json (len : N) (doc : metadata)
| Zip (len : N) (members : list (path * file)).

Inductive node :=
| File (f : file)
| Dir (entries : list (string * node)).

(** The entries of a directory, in the order [os.listdir] returns them. *)
Definition listing := list (string * node).

(** [os.path.getsize] on a regular file *)
Definition getsize (f : file) : N :=
  match f with
  | Raw bytes => N.of_nat (String.length bytes)
  | Json len _ => len
  | Zip len _ => len
  end.

Fixpoint lookup (name : string) (d : listing) : option node :=
  match d with
  | [] => None
  | (n, x) :: rest => if n =? name then Some x else lookup name rest
  end.

Definition remove (name : string) (d : listing) : listing :=
  filter (fun e => negb (fst e =? name)) d.

(** Creating or replacing an entry: an existing entry keeps its place in
    the listing, a new one is listed last. *)
Fixpoint set_entry (name : string) (x : node) (d : listing) : listing :=
  match d with
  | [] => [(name, x)]
  | (n, y) :: rest =>
      if n =? name then (n, x) :: rest else (n, y) :: set_entry name x rest
  end.

(** Entry names are unique in a directory. *)
Definition unique_names (d : listing) : Prop := NoDup (map fst d).

Fixpoint unique_namesb (d : listing) : bool :=
  match d with
  | [] => true
  | (n, _) :: rest =>
      match lookup n rest with
      | None => unique_namesb rest
      | Some _ => false
      end
  end.

(** The node at a location below a directory. *)
Fixpoint lookup_path (p : path) (d : listing) : option node :=
  match p with
  | [] => Some (Dir d)
  | name :: rest =>
      match lookup name d, rest with
      | Some x, [] => Some x
      | Some (Dir sub), _ :: _ => lookup_path rest sub
      | _, _ => None
      end
  end.

(** [os.path.exists] *)
Definition exists_path (p : path) (d : listing) : bool :=
  match lookup_path p d with Some _ => true | None => false end.

(** [open(p, 'w')] followed by writing [f]: the parent must be an existing
    directory and the target must not be a directory. *)
Fixpoint write_file (p : path) (f : file) (d : listing) : Result listing :=
  match p with
  | [] => Raise IsADirectoryError
  | [name] =>
      match lookup name d with
      | Some (Dir _) => Raise IsADirectoryError
      | _ => Ok (set_entry name (File f) d)
      end
  | name :: rest =>
      match lookup name d with
      | Some (Dir sub) =>
          match write_file rest f sub with
          | Ok sub' => Ok (set_entry name (Dir sub') d)
          | Raise e => Raise e
          end
      | Some (File _) => Raise NotADirectoryError
      | None => Raise FileNotFoundError
      end
  end.

(** [os.makedirs(p, exist_ok=...)] *)
Fixpoint makedirs (p : path) (exist_ok : bool) (d : listing) : Result listing :=
  match p with
  | [] => Ok d
  | [name] =>
      match lookup name d with
      | None => Ok (set_entry name (Dir []) d)
      | Some (Dir _) => if exist_ok then Ok d else Raise FileExistsError
      | Some (File _) => Raise FileExistsError
      end
  | name :: rest =>
      match lookup name d with
      | None =>
          match makedirs rest exist_ok [] with
          | Ok sub' => Ok (set_entry name (Dir sub') d)
          | Raise e => Raise e
          end
      | Some (Dir sub) =>
          match makedirs rest exist_ok sub with
          | Ok sub' => Ok (set_entry name (Dir sub') d)
          | Raise e => Raise e
          end
      | Some (File _) => Raise NotADirectoryError
      end
  end.

(** [shutil.copy2(src, dst)] of a regular file named [base]: a destination
    that is a directory receives the file under its base name. *)
Definition copy2 (base : string) (f : file) (dst : path) (d : listing)
  : Result listing :=
  match lookup_path dst d with
  | Some (Dir _) => write_file (dst ++ [base]) f d
  | _ => write_file dst f d
  end.

(** Replacing the node at an existing location, or adding it under an
    existing parent directory. *)
Fixpoint put_node (p : path) (x : node) (d : listing) : Result listing :=
  match p with
  | [] => Raise FileExistsError
  | [name] => Ok (set_entry name x d)
  | name :: rest =>
      match lookup name d with
      | Some (Dir sub) =>
          match put_node rest x sub with
          | Ok sub' => Ok (set_entry name (Dir sub') d)
          | Raise e => Raise e
          end
      | Some (File _) => Raise NotADirectoryError
      | None => Raise FileNotFoundError
      end
  end.

(** [os.remove] and [shutil.rmtree] on an entry of a directory. *)
Definition os_remove (name : string) (d : listing) : Result listing :=
  match lookup name d with
  | Some (File _) => Ok (remove name d)
  | Some (Dir _) => Raise IsADirectoryError
  | None => Raise FileNotFoundError
  end.

Definition shutil_rmtree (name : string) (d : listing) : Result listing :=
  match lookup name d with
  | Some (Dir _) => Ok (remove name d)
  | Some (File _) => Raise NotADirectoryError
  | None => Raise FileNotFoundError
  end.

(** [shutil.copytree(src, dst, dirs_exist_ok=True)] onto an existing
    directory with entries [dst]: files are copied with [copy2], directories
    are merged; an entry that cannot be copied is recorded and the copy goes
    on. The result is the merged directory and whether an error was
    recorded (in which case [copytree] raises when it is done). *)
Fixpoint merge_tree (src : node) : listing -> listing * bool :=
  match src with
  | File _ => fun dst => (dst, true)
  | Dir entries => fun dst =>
      fold_left
        (fun (acc : listing * bool) (e : string * node) =>
           let (cur, err) := acc in
           match snd e with
           | File f =>
               match copy2 (fst e) f [fst e] cur with
               | Ok cur' => (cur', err)
               | Raise _ => (cur, true)
               end
           | Dir _ =>
               match lookup (fst e) cur with
               | Some (File _) => (cur, true)
               | Some (Dir old) =>
                   let (sub, err') := merge_tree (snd e) old in
                   (set_entry (fst e) (Dir sub) cur, err || err')
               | None =>
                   let (sub, err') := merge_tree (snd e) [] in
                   (set_entry (fst e) (Dir sub) cur, err || err')
               end
           end)
        entries (dst, false)
  end.

(** ** The state of the file system *)

Record fs := {
  backup_root : option listing;   (* CONFIG['backup_dir']; None: absent *)
  content_root : option node;     (* CONFIG['content_dir']; None: absent *)
  config_store : list (path * file)  (* the configuration files that exist *)
}.

Definition path_eqb (p q : path) : bool :=
  if list_eq_dec string_dec p q then true else false.

Fixpoint lookup_config (p : path) (cs : list (path * file)) : option file :=
  match cs with
  | [] => None
  | (q, f) :: rest => if path_eqb q p then Some f else lookup_config p rest
  end.

Fixpoint set_config (p : path) (f : file) (cs : list (path * file))
  : list (path * file) :=
  match cs with
  | [] => [(p, f)]
  | (q, g) :: rest =>
      if path_eqb q p then (q, f) :: rest else (q, g) :: set_config p f rest
  end.

Definition with_backups (d : listing) (s : fs) : fs :=
  {| backup_root := Some d; content_root := content_root s;
     config_store := config_store s |}.

Definition with_content (c : option node) (s : fs) : fs :=
  {| backup_root := backup_root s; content_root := c;
     config_store := config_store s |}.

Definition with_configs (cs : list (path * file)) (s : fs) : fs :=
  {| backup_root := backup_root s; content_root := content_root s;
     config_store := cs |}.

(** ** Computations on the file system that may raise *)

Definition M (A : Type) : Type := fs -> Result A * fs.

Definition ret {A} (a : A) : M A := fun s => (Ok a, s).

Definition raise {A} (e : exn) : M A := fun s => (Raise e, s).

Definition bind {A B} (m : M A) (k : A -> M B) : M B :=
  fun s =>
    match m s with
    | (Ok a, s') => k a s'
    | (Raise e, s') => (Raise e, s')
    end.

Notation "x <- m ;; k" := (bind m (fun x => k))
  (at level 61, m at next level, right associativity).
Notation "m ;;; k" := (bind m (fun _ => k))
  (at level 61, right associativity).

(** The state a computation leaves, and its outcome. *)
Definition state_after {A} (m : M A) (s : fs) : fs := snd (m s).
Definition outcome {A} (m : M A) (s : fs) : Result A := fst (m s).

(** [try: body finally: final]: [final] runs on the state [body] leaves,
    whatever its outcome; the outcome of [body] is the outcome of the whole
    unless [final] itself raises. *)
Definition try_finally {A} (body : M A) (final : M unit) : M A :=
  fun s =>
    let (r, s1) := body s in
    match final s1 with
    | (Ok _, s2) => (r, s2)
    | (Raise e, s2) => (Raise e, s2)
    end.

(** An operation on the backup root, which exists. *)
Definition on_backups (op : listing -> Result listing) : M unit :=
  fun s =>
    match backup_root s with
    | None => (Raise FileNotFoundError, s)
    | Some d =>
        match op d with
        | Ok d' => (Ok tt, with_backups d' s)
        | Raise e => (Raise e, s)
        end
    end.

(** Python's [for x in xs: body x]. *)
Fixpoint for_each {A} (xs : list A) (body : A -> M unit) : M unit :=
  match xs with
  | [] => ret tt
  | x :: rest => body x ;;; for_each rest body
  end.

(** ** CatalogStore: [list_backups] *)

Inductive backup_type := compressed | directory.

(** One element of the list built by [list_backups]; ['path'] is kept as the
    name of the entry of the backup root it was read from. The computed
    on-disk ['size'], which only the table display reads, is left out. *)
Record backup_info := {
  bi_name : string;
  bi_type : backup_type;
  bi_path : string;
  bi_metadata : metadata
}.

(** [os.path.exists(metadata_path)] followed by [open] and [json.load]
    inside [try]: anything but a regular file holding a JSON document makes
    the item be skipped. *)
Definition read_metadata (x : option node) : option metadata :=
  match x with
  | Some (File (Json _ doc)) => Some doc
  | _ => None
  end.

Definition sidecar_of (backup_name : string) : string :=
  backup_name +++ "_metadata.json".

(** The body of the loop over [os.listdir(CONFIG['backup_dir'])]. *)
Definition scan_item (d : listing) (item : string * node) : option backup_info :=
  let (name, x) := item in
  if Str.endswith name ".zip" then
    let backup_name := Str.drop_last 4 name in
    let metadata_file := sidecar_of backup_name in
    match read_metadata (lookup metadata_file d) with
    | Some doc =>
        Some {| bi_name := backup_name; bi_type := compressed;
                bi_path := name; bi_metadata := doc |}
    | None => None
    end
  else
    match x with
    | Dir sub =>
        match read_metadata (lookup "metadata.json" sub) with
        | Some doc =>
            Some {| bi_name := name; bi_type := directory;
                    bi_path := name; bi_metadata := doc |}
        | None => None
        end
    | File _ => None
    end.

Fixpoint filter_map {A B} (f : A -> option B) (l : list A) : list B :=
  match l with
  | [] => []
  | x :: rest =>
      match f x with
      | Some y => y :: filter_map f rest
      | None => filter_map f rest
      end
  end.

Definition scan (d : listing) : list backup_info := filter_map (scan_item d) d.

Definition has_timestamp (b : backup_info) : bool :=
  match md_timestamp (bi_metadata b) with Some _ => true | None => false end.

(** The sort key [x['metadata']['timestamp']] of an element that has one. *)
Definition timestamp_of (b : backup_info) : Z :=
  match md_timestamp (bi_metadata b) with Some t => t | None => 0%Z end.

(** [list.sort(key=..., reverse=True)] is stable: the result is descending
    in the key and elements with equal keys keep their original order. A
    stable sort is determined by this, whichever algorithm computes it. *)
Fixpoint insert_newest_first (x : backup_info) (sorted : list backup_info)
  : list backup_info :=
  match sorted with
  | [] => [x]
  | y :: rest =>
      if (timestamp_of x <? timestamp_of y)%Z
      then y :: insert_newest_first x rest
      else x :: sorted
  end.

Fixpoint sort_newest_first (l : list backup_info) : list backup_info :=
  match l with
  | [] => []
  | x :: rest => insert_newest_first x (sort_newest_first rest)
  end.

Definition list_backups (s : fs) : Result (list backup_info) :=
  match backup_root s with
  | None => Ok []
  | Some d =>
      let found := scan d in
      if forallb has_timestamp found
      then Ok (sort_newest_first found)
      else Raise (KeyError "timestamp")
  end.

(** ** RetentionPolicy: [cleanup_old_backups] *)

(** Python's [l[i:]] for any integer [i]. *)
Definition slice_from {A} (i : Z) (l : list A) : list A :=
  let n := Z.of_nat (List.length l) in
  if (i <? 0)%Z then skipn (Z.to_nat (Z.max 0 (n + i))) l
  else skipn (Z.to_nat i) l.

(** The body of the loop over [old_backups], with its [try]/[except]: a
    deletion that raises is logged and leaves what was done before it. *)
Definition delete_backup (backup : backup_info) (d : listing) : listing :=
  match bi_type backup with
  | compressed =>
      match os_remove (bi_path backup) d with
      | Raise _ => d
      | Ok d1 =>
          let metadata_file := sidecar_of (bi_name backup) in
          match lookup metadata_file d1 with
          | None => d1
          | Some _ =>
              match os_remove metadata_file d1 with
              | Ok d2 => d2
              | Raise _ => d1
              end
          end
      end
  | directory =>
      match shutil_rmtree (bi_path backup) d with
      | Ok d1 => d1
      | Raise _ => d
      end
  end.

Definition delete_all (old_backups : list backup_info) (d : listing) : listing :=
  fold_left (fun cur backup => delete_backup backup cur) old_backups d.

Definition cleanup_old_backups (cfg : config) (s : fs) : fs :=
  match list_backups s with
  | Raise _ => s
  | Ok backups =>
      if (Z.of_nat (List.length backups) <=? max_backups cfg)%Z then s
      else
        let backups_to_delete := (Z.of_nat (List.length backups) - max_backups cfg)%Z in
        let old_backups := slice_from (- backups_to_delete) backups in
        match backup_root s with
        | None => s
        | Some d => with_backups (delete_all old_backups d) s
        end
  end.

(** ** Vocabulary for stating what trimming removes *)

Definition memb (x : string) (l : list string) : bool :=
  existsb (String.eqb x) l.

(** The entries of the backup root that deleting [b] removes. *)
Definition targets (b : backup_info) : list string :=
  match bi_type b with
  | compressed => [sidecar_of (bi_name b); bi_path b]
  | directory => [bi_path b]
  end.

(** Whether the deletion of [b] goes through in [d]: [os.remove] needs a
    regular file and [shutil.rmtree] a directory. *)
Definition deletable (d : listing) (b : backup_info) : bool :=
  match bi_type b, lookup (bi_path b) d with
  | compressed, Some (File _) => true
  | directory, Some (Dir _) => true
  | _, _ => false
  end.

(** [d] without the entries named in [K]. *)
Definition prune (K : list string) (d : listing) : listing :=
  filter (fun e => negb (memb (fst e) K)) d.

(** The names removed by deleting the elements of [old] in turn. *)
Definition kills (d : listing) (old : list backup_info) (K : list string)
  : list string :=
  fold_left (fun K b => if deletable d b then targets b ++ K else K) old K.

Definition is_dir (x : node) : bool :=
  match x with Dir _ => true | File _ => false end.

(** Newest first: no element is older than one that follows it. *)
Definition newest_first (l : list backup_info) : Prop :=
  StronglySorted (fun a b => (timestamp_of b <= timestamp_of a)%Z) l.

(** How many elements of the listing trimming keeps at most: [max_backups],
    or none when the configured limit is negative. *)
Definition keep_count (cfg : config) : nat := Z.to_nat (Z.max 0 (max_backups cfg)).

(** Entry names of the backup root are unique. *)
Definition root_ok (s : fs) : bool :=
  match backup_root s with
  | Some d => unique_namesb d
  | None => true
  end.

(** The elements of a listing, or nothing when listing raised. *)
Definition catalog (s : fs) : list backup_info :=
  match list_backups s with
  | Ok l => l
  | Raise _ => []
  end.



(** [d'] differs from [d] at most at the entry [n], which stays a directory
    if it was one; unique names stay unique. *)
Definition only_touches (n : string) (d d' : listing) : Prop :=
  (forall m, m <> n -> lookup m d' = lookup m d) /\
  (forall sub, lookup n d = Some (Dir sub) ->
               exists sub', lookup n d' = Some (Dir sub')) /\
  (unique_names d -> unique_names d').

(** The staging directory exists in the backup root. *)
Definition has_staging (temp_dir : string) (s : fs) : Prop :=
  exists d sub, backup_root s = Some d /\ lookup temp_dir d = Some (Dir sub).

(** A property of the state that a computation keeps, whatever its outcome. *)
Definition preserves {A} (P : fs -> Prop) (m : M A) : Prop :=
  forall s, P s -> P (state_after m s).

(** The members of a zip archive entry, if it is one. *)
Definition zip_members (x : option node) : list (path * file) :=
  match x with
  | Some (File (Zip _ members)) => members
  | _ => []
  end.

(** The counts a listing shows for each archive. *)
Definition counts_of (b : backup_info) : string * backup_type * N * N :=
  (bi_name b, bi_type b, md_file_count (bi_metadata b),
   md_content_size (bi_metadata b)).

(** From [s] to [s'] the backup root changed at most at the entry [temp]
    and the content tree and the configuration files did not change. *)
Definition root_step (temp : string) (s s' : fs) : Prop :=
  (forall d, backup_root s = Some d ->
     exists d', backup_root s' = Some d' /\ only_touches temp d d') /\
  content_root s' = content_root s /\
  config_store s' = config_store s.

(** ** ArchiveWriter and BackupService: [create_backup] *)

(** What one call of [create_backup] reads from its environment. *)
Record create_env := {
  now_name : datetime;   (* datetime.now() inside get_backup_filename *)
  time_meta : Z;         (* time.time() stored as metadata['timestamp'] *)
  now_meta : datetime;   (* datetime.now() stored as metadata['datetime'] *)
  zip_len : N;           (* length of the archive file once written *)
  json_len : N           (* length of the dumped metadata file *)
}.

Definition setup_backup_dir : M unit :=
  fun s =>
    match backup_root s with
    | None => (Ok tt, with_backups [] s)
    | Some _ => (Ok tt, s)
    end.

(** [os.walk(top)] with the body of the source's loop: at each directory the
    sub-directories whose joined path is excluded are pruned, and each file
    whose joined path is not excluded is yielded, with its location relative
    to [top]. Files of a directory come before its sub-directories. *)
Fixpoint walk (cfg : config) (root : string) (rel : path) (top : node)
  : list (path * file) :=
  match top with
  | File _ => []
  | Dir entries =>
      flat_map
        (fun e : string * node =>
           match snd e with
           | File f =>
               let file_path := os_path_join root (fst e) in
               if should_exclude cfg file_path then []
               else [(rel ++ [fst e], f)]
           | Dir _ => []
           end) entries
      ++
      flat_map
        (fun e : string * node =>
           match snd e with
           | File _ => []
           | Dir _ =>
               if should_exclude cfg (os_path_join root (fst e)) then []
               else walk cfg (os_path_join root (fst e)) (rel ++ [fst e]) (snd e)
           end) entries
  end.

(** The members written for the content tree: archive names are relative to
    the script directory. *)
Definition content_members (cfg : config) (s : fs) : list (path * file) :=
  match content_root s with
  | None => []
  | Some top =>
      map (fun m => (content_dir cfg ++ fst m, snd m))
          (walk cfg (path_str cfg (content_dir cfg)) [] top)
  end.

(** The members written for the configuration files that exist. *)
Fixpoint config_members (config_files : list path) (cs : list (path * file))
  : list (path * file) :=
  match config_files with
  | [] => []
  | config_file :: rest =>
      match lookup_config config_file cs with
      | Some f => (config_file, f) :: config_members rest cs
      | None => config_members rest cs
      end
  end.

(** [metadata['file_count'] += 1] and
    [metadata['content_size'] += os.path.getsize(...)] *)
Definition count_member (m : metadata) (member : path * file) : metadata :=
  {| md_name := md_name m;
     md_timestamp := md_timestamp m;
     md_datetime := md_datetime m;
     md_description := md_description m;
     md_content_size := md_content_size m + getsize (snd member);
     md_file_count := md_file_count m + 1 |}.

Definition basename (p : path) : string := last p "".

(** [shutil.copytree(src, dst)]: [src] must be a directory and [dst] must
    not exist; missing parents of [dst] are created. *)
Definition copytree_new (src : option node) (dst : path) (d : listing)
  : Result listing :=
  match src with
  | None => Raise FileNotFoundError
  | Some (File _) => Raise NotADirectoryError
  | Some (Dir entries) =>
      if exists_path dst d then Raise FileExistsError
      else
        match makedirs dst false d with
        | Ok d1 => put_node dst (Dir entries) d1
        | Raise e => Raise e
        end
  end.

Definition create_backup (cfg : config) (env : create_env)
    (description : string) : M string :=
  setup_backup_dir ;;;
  let backup_name := get_backup_filename (now_name env) in
  let metadata :=
    {| md_name := backup_name;
       md_timestamp := Some (time_meta env);
       md_datetime := now_meta env;
       md_description := description;
       md_content_size := 0;
       md_file_count := 0 |} in
  (if compress cfg then
     let zip_path := backup_name +++ ".zip" in
     fun s =>
       let members :=
         content_members cfg s ++
         config_members (config_files cfg) (config_store s) in
       let metadata := fold_left count_member members metadata in
       (on_backups (write_file [zip_path] (Zip (zip_len env) members)) ;;;
        let metadata_path := sidecar_of backup_name in
        on_backups (write_file [metadata_path] (Json (json_len env) metadata))) s
   else
     (fun s =>
        on_backups (copytree_new (content_root s) [backup_name; "content"]) s) ;;;
     on_backups (makedirs [backup_name; "config"] true) ;;;
     (fun s =>
        for_each (config_members (config_files cfg) (config_store s))
          (fun member =>
             on_backups (copy2 (basename (fst member)) (snd member)
                               [backup_name; "config"])) s) ;;;
     on_backups (write_file [backup_name; "metadata.json"]
                            (Json (json_len env) metadata))) ;;;
  (fun s => (Ok tt, cleanup_old_backups cfg s)) ;;;
  ret backup_name.

(** Every file below [top], with its joined path string and its location
    relative to [top], in the order [walk] visits them, nothing excluded. *)
Fixpoint all_files (root : string) (rel : path) (top : node)
  : list (string * (path * file)) :=
  match top with
  | File _ => []
  | Dir entries =>
      flat_map
        (fun e : string * node =>
           match snd e with
           | File f => [(os_path_join root (fst e), (rel ++ [fst e], f))]
           | Dir _ => []
           end) entries
      ++
      flat_map
        (fun e : string * node =>
           match snd e with
           | File _ => []
           | Dir _ =>
               all_files (os_path_join root (fst e)) (rel ++ [fst e]) (snd e)
           end) entries
  end.

(** The files below the content directory whose path is not excluded. *)
Definition included_files (cfg : config) (s : fs) : list (string * (path * file)) :=
  match content_root s with
  | None => []
  | Some top =>
      filter (fun t => negb (should_exclude cfg (fst t)))
             (all_files (path_str cfg (content_dir cfg)) [] top)
  end.

(** The configured configuration files that exist. *)
Definition existing_configs (cfg : config) (s : fs) : list (path * file) :=
  config_members (config_files cfg) (config_store s).

Definition total_size (files : list file) : N :=
  fold_right (fun f acc => getsize f + acc)%N 0%N files.

(** ** RestoreService: [restore_backup] *)

(** What one call of [restore_backup] reads from its environment. *)
Record restore_env := {
  confirm : string;        (* the answer typed at the input() prompt *)
  time_temp : Z;           (* time.time() naming the staging directory *)
  now_snapshot : datetime  (* datetime.now() naming the pre-restore copy *)
}.

(** [str(int(t))] for a reading [t] of [time.time()] *)
Definition str_of_int (z : Z) : string := NilZero.string_of_int (Z.to_int z).

Definition temp_dir_name (env : restore_env) : string :=
  "temp_restore_" +++ str_of_int (Z.quot (time_temp env) 1000000).

Definition snapshot_name (env : restore_env) : string :=
  "pre_restore_" +++ get_backup_filename (now_snapshot env).

(** The components that [ZipFile._extract_member] drops from a member
    name: empty ones, [os.path.curdir] and [os.path.pardir]. *)
Definition invalid_path_parts : list string := [""; "."; ".."].

Definition sanitize (arcname : path) : path :=
  filter (fun x => negb (memb x invalid_path_parts)) arcname.

(** [ZipFile.extractall]: one member, below [base]. *)
Definition extract_member (base : path) (member : path * file) (d : listing)
  : Result listing :=
  let arcname := sanitize (fst member) in
  let target := base ++ arcname in
  let upperdirs := removelast target in
  match (if exists_path upperdirs d then Ok d else makedirs upperdirs false d) with
  | Ok d1 => write_file target (snd member) d1
  | Raise e => Raise e
  end.

(** Step 3: the archive is materialised in the staging directory. *)
Definition stage (backup_info : backup_info) (temp_dir : string) : M unit :=
  fun s =>
    match backup_root s with
    | None => (Raise FileNotFoundError, s)
    | Some d =>
        match bi_type backup_info with
        | compressed =>
            match lookup (bi_path backup_info) d with
            | Some (File (Zip _ members)) =>
                for_each members
                  (fun member => on_backups (extract_member [temp_dir] member)) s
            | Some (File _) => (Raise BadZipFile, s)
            | Some (Dir _) => (Raise IsADirectoryError, s)
            | None => (Raise FileNotFoundError, s)
            end
        | directory =>
            match lookup (bi_path backup_info) d, lookup temp_dir d with
            | Some src, Some (Dir cur) =>
                if bi_path backup_info =? temp_dir
                then (Raise ShutilError, s)
                else
                  let (merged, err) := merge_tree src cur in
                  let s' := with_backups (set_entry temp_dir (Dir merged) d) s in
                  if err then (Raise ShutilError, s') else (Ok tt, s')
            | None, _ => (Raise FileNotFoundError, s)
            | _, Some (File _) => (Raise FileExistsError, s)
            | _, None => (Raise FileNotFoundError, s)
            end
        end
    end.

(** Step 4: the current content, if any, is copied next to the archives. *)
Definition snapshot_current (env : restore_env) : M unit :=
  fun s =>
    let current_backup_name := snapshot_name env in
    match content_root s with
    | None => (Ok tt, s)
    | Some _ =>
        on_backups (copytree_new (content_root s) [current_backup_name]) s
    end.

(** Step 5, content: the current tree is removed and the staged one put in
    its place. *)
Definition restore_content (temp_dir : string) : M unit :=
  fun s =>
    match backup_root s with
    | None => (Raise FileNotFoundError, s)
    | Some d =>
        match lookup_path [temp_dir; "content"] d with
        | None => (Ok tt, s)
        | Some staged =>
            match content_root s with
            | Some (File _) => (Raise NotADirectoryError, s)
            | _ =>
                match staged with
                | Dir entries => (Ok tt, with_content (Some (Dir entries)) s)
                | File _ => (Raise NotADirectoryError, with_content None s)
                end
            end
        end
    end.

(** Step 5, configuration files: each configured file whose base name is
    found in the staged [config] directory is copied over its location. *)
Definition restore_config_file (d : listing) (temp_dir : string)
    (config_file : path) : M unit :=
  fun s =>
    let config_filename := basename config_file in
    match lookup_path [temp_dir; "config"; config_filename] d with
    | None => (Ok tt, s)
    | Some (File f) =>
        (Ok tt, with_configs (set_config config_file f (config_store s)) s)
    | Some (Dir _) => (Raise IsADirectoryError, s)
    end.

Definition restore_configs (cfg : config) (temp_dir : string) : M unit :=
  fun s =>
    match backup_root s with
    | None => (Raise FileNotFoundError, s)
    | Some d =>
        if exists_path [temp_dir; "config"] d then
          for_each (config_files cfg) (restore_config_file d temp_dir) s
        else (Ok tt, s)
    end.

(** The body of the inner [try]: steps 3 to 5. *)
Definition restore_steps (cfg : config) (env : restore_env)
    (backup_info : backup_info) (temp_dir : string) : M bool :=
  stage backup_info temp_dir ;;;
  snapshot_current env ;;;
  restore_content temp_dir ;;;
  restore_configs cfg temp_dir ;;;
  ret true.

(** The [finally] clause: step 6. *)
Definition remove_staging (temp_dir : string) : M unit :=
  fun s =>
    match backup_root s with
    | None => (Ok tt, s)
    | Some d =>
        if exists_path [temp_dir] d
        then on_backups (shutil_rmtree temp_dir) s
        else (Ok tt, s)
    end.

Definition restore_backup (cfg : config) (env : restore_env)
    (backup_name : string) : M bool :=
  fun s =>
    match list_backups s with
    | Raise e => (Raise e, s)
    | Ok backups =>
        match find (fun b => bi_name b =? backup_name) backups with
        | None => (Raise (ValueError backup_name), s)
        | Some backup_info =>
            if negb (Str.lower (confirm env) =? "y") then (Ok false, s)
            else
              let temp_dir := temp_dir_name env in
              (on_backups (makedirs [temp_dir] true) ;;;
               try_finally (restore_steps cfg env backup_info temp_dir)
                           (remove_staging temp_dir)) s
        end
    end.

(** ** Concrete scenarios *)

Definition set_max_backups (n : Z) (cfg : config) : config :=
  {| script_dir := script_dir cfg; backup_dir := backup_dir cfg;
     content_dir := content_dir cfg; config_files := config_files cfg;
     log_file := log_file cfg; max_backups := n;
     backup_interval := backup_interval cfg; compress := compress cfg;
     exclude_patterns := exclude_patterns cfg |}.

Definition set_compress (c : bool) (cfg : config) : config :=
  {| script_dir := script_dir cfg; backup_dir := backup_dir cfg;
     content_dir := content_dir cfg; config_files := config_files cfg;
     log_file := log_file cfg; max_backups := max_backups cfg;
     backup_interval := backup_interval cfg; compress := c;
     exclude_patterns := exclude_patterns cfg |}.

Module Scenario.

Definition cfg : config := CONFIG "/srv/novel".
Definition cfg1 : config := set_max_backups 1 cfg.
Definition cfg_dir : config := set_compress false cfg.

Definition at_second (sec usec : N) : datetime :=
  {| year := 2024; month := 1; day := 2; hour := 3; minute := 4;
     second := sec; microsecond := usec |}.

Definition env_at (now : datetime) (t : Z) : create_env :=
  {| now_name := now; time_meta := t; now_meta := now;
     zip_len := 120; json_len := 160 |}.

Definition tree : node :=
  Dir [("a.md", File (Raw "hello"));
       (".git", Dir [("HEAD", File (Raw "ref"))]);
       ("vol1", Dir [("b.md", File (Raw "wor"))])].

(** A project with content, one configuration file and no backup yet. *)
Definition fresh : fs :=
  {| backup_root := None;
     content_root := Some tree;
     config_store := [(["config.yaml"], Raw "title: v1")] |}.

(** Three archives made one second apart, under the default limit. *)
Definition three_archives : fs :=
  Eval vm_compute in
    state_after (create_backup cfg (env_at (at_second 7 0) 3000000) "c")
      (state_after (create_backup cfg (env_at (at_second 6 0) 2000000) "b")
         (state_after (create_backup cfg (env_at (at_second 5 0) 1000000) "a")
            fresh)).

Definition three_archives_root : listing :=
  Eval vm_compute in
    match backup_root three_archives with Some d => d | None => [] end.

(** The same with an archive that lost its sidecar and a pre-restore copy. *)
Definition with_orphans_root : listing :=
  three_archives_root ++
  [("lost.zip", File (Zip 9 []));
   ("pre_restore_backup_20240102_030406", Dir [("old.md", File (Raw "o"))])].

Definition with_orphans : fs := with_backups with_orphans_root three_archives.

(** The same with an imported archive whose metadata record has no
    timestamp. *)
Definition untimed_root : listing :=
  three_archives_root ++
  [("old.zip", File (Zip 9 []));
   ("old_metadata.json",
    File (Json 40 {| md_name := "old"; md_timestamp := None;
                     md_datetime := at_second 0 0; md_description := "imported";
                     md_content_size := 0; md_file_count := 0 |}))].

Definition untimed : fs := with_backups untimed_root three_archives.




(** Two creations within one clock second. *)
Definition early : create_env := env_at (at_second 5 100) 1000100.
Definition late : create_env := env_at (at_second 5 900) 1000900.

(** A confirmed restore of the oldest of the three archives. *)
Definition renv : restore_env :=
  {| confirm := "Y"; time_temp := 1704164700250000;
     now_snapshot := at_second 9 0 |}.

(** The content and the configuration file were edited after the backups. *)
Definition edited : fs :=
  with_configs [(["config.yaml"], Raw "title: v2")]
    (with_content (Some (Dir [("new.md", File (Raw "draft"))])) three_archives).

Definition restored : fs :=
  Eval vm_compute in
    state_after (restore_backup cfg renv "backup_20240102_030405") edited.

(** The oldest archive file is damaged: it is no zip archive any more. *)
Definition damaged : fs :=
  with_backups
    (set_entry "backup_20240102_030405.zip" (File (Raw "junk")) three_archives_root)
    edited.

Definition damaged_info : backup_info :=
  Eval vm_compute in
    match find (fun b => bi_name b =? "backup_20240102_030405") (catalog damaged) with
    | Some b => b
    | None =>
        {| bi_name := ""; bi_type := compressed; bi_path := "";
           bi_metadata :=
             {| md_name := ""; md_timestamp := None; md_datetime := at_second 0 0;
                md_description := ""; md_content_size := 0; md_file_count := 0 |} |}
    end.


(** The same project backed up in directory form, then edited. *)
Definition dir_archive : fs :=
  Eval vm_compute in
    state_after (create_backup cfg_dir (env_at (at_second 5 0) 1000000) "a") fresh.

Definition dir_edited : fs :=
  with_configs [(["config.yaml"], Raw "title: v2")]
    (with_content (Some (Dir [("new.md", File (Raw "draft"))])) dir_archive).

End Scenario.

(** ** Vocabulary of the further properties *)

(** The content tree and the configuration files are the given ones. *)
Definition sources_are (c : option node) (cs : list (path * file)) (s : fs) : Prop :=
  content_root s = c /\ config_store s = cs.




(** The backup root of [s'] exists and agrees with [d] at every entry whose
    name is not in [names]. *)
Definition same_outside (names : list string) (d : listing) (s' : fs) : Prop :=
  exists d', backup_root s' = Some d' /\
             forall n, ~ In n names -> lookup n d' = lookup n d.

(** The directory [c] is held, entry for entry, by the entry [snap] of the
    backup root of [s']. *)
Definition content_saved (c : node) (snap : string) (s' : fs) : Prop :=
  exists d' entries,
    c = Dir entries /\ backup_root s' = Some d' /\
    lookup snap d' = Some (Dir entries).

(** The configuration files are [cs] and the staging directory holds no
    [config] entry. *)
Definition no_staged_config (temp_dir : string) (cs : list (path * file))
    (s' : fs) : Prop :=
  config_store s' = cs /\
  exists d', backup_root s' = Some d' /\
             lookup_path [temp_dir; "config"] d' = None.


(** * Properties *)

(** ** Facts about strings *)

Section StringFacts.

Lemma append_nil_r (s : string) : s +++ "" = s.
Proof. induction s as [|c s IH]; simpl; [reflexivity | now rewrite IH]. Qed.

Lemma append_assoc (a b c : string) : (a +++ b) +++ c = a +++ (b +++ c).
Proof. induction a as [|x a IH]; simpl; [reflexivity | now rewrite IH]. Qed.

Lemma length_append (a b : string) :
  String.length (a +++ b) = (String.length a + String.length b)%nat.
Proof. induction a as [|x a IH]; simpl; [reflexivity | now rewrite IH]. Qed.

Lemma prefix_iff (t p : string) :
  String.prefix t p = true <-> exists post, p = t +++ post.
Proof.
  revert p; induction t as [|a t IH]; intros p.
  - destruct p; simpl; split; intros _; eauto.
  - destruct p as [|b p]; simpl.
    + split; [discriminate | intros [post H]; discriminate].
    + destruct (ascii_dec a b) as [->|Hab].
      * rewrite IH. split; intros [post H]; exists post.
        -- now rewrite H.
        -- now inversion H.
      * split; [discriminate | intros [post H]; injection H as H1 _; congruence].
Qed.

Lemma contains_unfold (t p : string) :
  Str.contains t p =
  if String.prefix t p then true
  else match p with
       | EmptyString => false
       | String _ rest => Str.contains t rest
       end.
Proof. destruct p; reflexivity. Qed.

Lemma contains_iff (t p : string) :
  Str.contains t p = true <-> Str.occurs_in t p.
Proof.
  unfold Str.occurs_in.
  induction p as [|c p IH]; rewrite contains_unfold.
  - destruct (String.prefix t "") eqn:E.
    + split; [intros _ | reflexivity].
      apply prefix_iff in E. destruct E as [post E]. now exists "", post.
    + split; [discriminate|].
      intros (pre & post & H).
      assert (pre = "") as ->.
      { destruct pre; [reflexivity | discriminate]. }
      simpl in H. assert (String.prefix t "" = true) by (apply prefix_iff; eauto).
      congruence.
  - destruct (String.prefix t (String c p)) eqn:E.
    + split; [intros _ | reflexivity].
      apply prefix_iff in E. destruct E as [post E]. now exists "", post.
    + rewrite IH. split.
      * intros (pre & post & H). exists (String c pre), post. simpl. now rewrite H.
      * intros (pre & post & H). destruct pre as [|x pre].
        -- simpl in H.
           assert (String.prefix t (String c p) = true) by (apply prefix_iff; eauto).
           congruence.
        -- simpl in H. injection H as _ H. eauto.
Qed.

(** A substring of a prefix is a substring of the whole. *)
Lemma contains_append_r (t p q : string) :
  Str.contains t p = true -> Str.contains t (p +++ q) = true.
Proof.
  rewrite !contains_iff. intros (pre & post & ->).
  exists pre, (post +++ q). now rewrite !append_assoc.
Qed.

Lemma endswith_unfold (s suf : string) :
  Str.endswith s suf =
  if s =? suf then true
  else match s with
       | EmptyString => false
       | String _ rest => Str.endswith rest suf
       end.
Proof. destruct s; reflexivity. Qed.

Lemma endswith_iff (s suf : string) :
  Str.endswith s suf = true <-> exists pre, s = pre +++ suf.
Proof.
  induction s as [|c s IH]; rewrite endswith_unfold.
  - destruct (String.eqb_spec "" suf) as [<-|Hne].
    + split; [intros _; now exists "" | reflexivity].
    + split; [discriminate|]. intros [pre H].
      destruct pre; simpl in H; [congruence | discriminate].
  - destruct (String.eqb_spec (String c s) suf) as [<-|Hne].
    + split; [intros _; now exists "" | reflexivity].
    + rewrite IH. split.
      * intros [pre ->]. now exists (String c pre).
      * intros [pre H]. destruct pre as [|x pre]; simpl in H; [congruence|].
        injection H as _ H. now exists pre.
Qed.

(** Equal strings with suffixes of equal length split alike. *)
Lemma append_suffix_inj (a b s1 s2 : string) :
  String.length s1 = String.length s2 ->
  a +++ s1 = b +++ s2 -> a = b /\ s1 = s2.
Proof.
  revert b; induction a as [|x a IH]; intros [|y b] Hlen H; simpl in H.
  - now split.
  - exfalso. apply (f_equal String.length) in H. simpl in H.
    rewrite length_append in H. lia.
  - exfalso. apply (f_equal String.length) in H. simpl in H.
    rewrite length_append in H. lia.
  - injection H as -> H. destruct (IH b Hlen H) as [-> ->]. now split.
Qed.

Lemma substring_0_append (pre s : string) :
  String.substring 0 (String.length pre) (pre +++ s) = pre.
Proof.
  induction pre as [|c pre IH]; simpl.
  - destruct s; reflexivity.
  - now rewrite IH.
Qed.

Lemma drop_last_append (pre suf : string) :
  Str.drop_last (String.length suf) (pre +++ suf) = pre.
Proof.
  unfold Str.drop_last. rewrite length_append.
  replace (String.length pre + String.length suf - String.length suf)%nat
    with (String.length pre) by lia.
  apply substring_0_append.
Qed.

Lemma should_exclude_loop_iff (patterns : list string) (p : string) :
  should_exclude_loop patterns p = true <->
  exists t, In t patterns /\ Str.occurs_in t p.
Proof.
  induction patterns as [|t ts IH]; simpl.
  - split; [discriminate | intros (t & [] & _)].
  - destruct (Str.contains t p) eqn:E.
    + split; [intros _ | reflexivity].
      exists t. split; [now left | now apply contains_iff].
    + rewrite IH. split.
      * intros (u & Hu & Ho). exists u. split; [now right | assumption].
      * intros (u & [<-|Hu] & Ho).
        -- apply contains_iff in Ho. congruence.
        -- eauto.
Qed.

End StringFacts.

(** ** Claim C9: the exclusion filter *)

(** C9. For every configured exclusion token [T] and every path string [P]
    that contains [T] as a substring, [should_exclude P] is true; conversely
    a path in which no configured token occurs is not excluded. *)
Theorem should_exclude_substring (cfg : config) (P : string) :
  (forall T, In T (exclude_patterns cfg) -> Str.occurs_in T P ->
             should_exclude cfg P = true) /\
  ((forall T, In T (exclude_patterns cfg) -> ~ Str.occurs_in T P) ->
   should_exclude cfg P = false).
Proof.
  unfold should_exclude. split.
  - intros T HT HP. apply should_exclude_loop_iff. eauto.
  - intros Hnone.
    destruct (should_exclude_loop (exclude_patterns cfg) P) eqn:E; [|reflexivity].
    apply should_exclude_loop_iff in E. destruct E as (t & Ht & Ho).
    exfalso. exact (Hnone t Ht Ho).
Qed.

Lemma should_exclude_substring_witness :
  should_exclude (CONFIG "/srv/novel") "/srv/novel/content/.git/HEAD" = true.
Proof.
  apply (proj1 (should_exclude_substring (CONFIG "/srv/novel")
                  "/srv/novel/content/.git/HEAD") ".git").
  - simpl. auto.
  - exists "/srv/novel/content/", "/HEAD". reflexivity.
Defined.

Section Identifiers.

Lemma compare_append (a b x y : string) :
  String.length a = String.length b ->
  String.compare (a +++ x) (b +++ y) =
  match String.compare a b with
  | Eq => String.compare x y
  | c => c
  end.
Proof.
  revert b; induction a as [|c a IH]; intros [|c' b] Hlen; simpl in *;
    try discriminate; [reflexivity|].
  destruct (Ascii.compare c c'); [|reflexivity|reflexivity].
  apply IH. now injection Hlen.
Qed.

Lemma length_zfill (w : nat) (n : N) : String.length (zfill w n) = w.
Proof.
  revert n; induction w as [|w IH]; intros n; simpl; [reflexivity|].
  rewrite length_append, IH. simpl. lia.
Qed.

Lemma compare_digit (x y : N) :
  (x < 10)%N -> (y < 10)%N ->
  Ascii.compare (digit x) (digit y) = N.compare x y.
Proof.
  intros Hx Hy. unfold Ascii.compare, digit.
  rewrite !N_ascii_embedding by lia.
  destruct (N.compare_spec x y) as [E|E|E].
  - apply N.compare_eq_iff. lia.
  - apply N.compare_lt_iff. lia.
  - apply N.compare_gt_iff. lia.
Qed.

Lemma compare_zfill (w : nat) (a b : N) :
  (a < 10 ^ N.of_nat w)%N -> (b < 10 ^ N.of_nat w)%N ->
  String.compare (zfill w a) (zfill w b) = N.compare a b.
Proof.
  revert a b; induction w as [|w IH]; intros a b Ha Hb.
  - simpl in *. assert (a = 0%N) by lia. assert (b = 0%N) by lia.
    subst. reflexivity.
  - cbn [zfill]. rewrite compare_append by (now rewrite !length_zfill).
    assert (Hpow : (10 ^ N.of_nat (S w) = 10 * 10 ^ N.of_nat w)%N).
    { rewrite Nat2N.inj_succ, N.pow_succ_r'. reflexivity. }
    rewrite Hpow in Ha, Hb. clear Hpow.
    specialize (IH (a / 10)%N (b / 10)%N).
    remember (10 ^ N.of_nat w)%N as P eqn:HP. clear HP.
    assert (H10 : 10%N <> 0%N) by discriminate.
    assert (Hda := N.div_mod a 10 H10). assert (Hdb := N.div_mod b 10 H10).
    assert (Hma := N.mod_upper_bound a 10 H10).
    assert (Hmb := N.mod_upper_bound b 10 H10).
    remember (a / 10)%N as qa. remember (b / 10)%N as qb.
    remember (a mod 10)%N as ra. remember (b mod 10)%N as rb.
    rewrite IH by lia.
    cbn [String.compare]. rewrite compare_digit by lia.
    destruct (N.compare_spec qa qb) as [E|E|E].
    + destruct (N.compare_spec ra rb) as [E'|E'|E'].
      * symmetry. apply N.compare_eq_iff. lia.
      * symmetry. apply N.compare_lt_iff. lia.
      * symmetry. apply N.compare_gt_iff. lia.
    + symmetry. apply N.compare_lt_iff. lia.
    + symmetry. apply N.compare_gt_iff. lia.
Qed.

Lemma datetime_ok_bounds (d : datetime) :
  datetime_ok d = true ->
  (year d < 10 ^ N.of_nat 4 /\ month d < 10 ^ N.of_nat 2 /\
   day d < 10 ^ N.of_nat 2 /\ hour d < 10 ^ N.of_nat 2 /\
   minute d < 10 ^ N.of_nat 2 /\ second d < 10 ^ N.of_nat 2)%N.
Proof.
  unfold datetime_ok. rewrite !andb_true_iff, !N.leb_le.
  change (10 ^ N.of_nat 4)%N with 10000%N.
  change (10 ^ N.of_nat 2)%N with 100%N. lia.
Qed.

(** The order of identifiers is the order of the readings cut to seconds. *)
Lemma compare_get_backup_filename (d1 d2 : datetime) :
  datetime_ok d1 = true -> datetime_ok d2 = true ->
  String.compare (get_backup_filename d1) (get_backup_filename d2) =
  lex_compare (to_second d1) (to_second d2).
Proof.
  intros H1 H2.
  apply datetime_ok_bounds in H1. apply datetime_ok_bounds in H2.
  unfold get_backup_filename, strftime_Ymd_HMS, to_second.
  repeat rewrite compare_append by (now rewrite ?length_zfill).
  rewrite !compare_zfill by tauto.
  change (String.compare "backup_" "backup_") with Eq.
  change (String.compare "_" "_") with Eq. cbv iota.
  cbn [lex_compare].
  destruct (N.compare (year d1) (year d2)); try reflexivity.
  destruct (N.compare (month d1) (month d2)); try reflexivity.
  destruct (N.compare (day d1) (day d2)); try reflexivity.
  destruct (N.compare (hour d1) (hour d2)); try reflexivity.
  destruct (N.compare (minute d1) (minute d2)); try reflexivity.
  destruct (N.compare (second d1) (second d2)); reflexivity.
Qed.

Lemma lex_compare_eq (a b : list N) : lex_compare a b = Eq <-> a = b.
Proof.
  revert b; induction a as [|x a IH]; intros [|y b]; simpl;
    try (split; [discriminate | discriminate]); [tauto|].
  destruct (N.compare_spec x y) as [E|E|E].
  - subst. rewrite IH. split; [now intros -> | now intros [=]].
  - split; [discriminate | intros [=]; lia].
  - split; [discriminate | intros [=]; lia].
Qed.

Lemma lex_compare_trans (a b c : list N) :
  lex_compare a b = Lt -> lex_compare b c = Lt -> lex_compare a c = Lt.
Proof.
  revert b c; induction a as [|x a IH]; intros [|y b] [|z c]; simpl;
    try discriminate; try reflexivity.
  destruct (N.compare_spec x y) as [E|E|E]; try discriminate;
  destruct (N.compare_spec y z) as [E'|E'|E']; try discriminate; intros H1 H2.
  - subst. rewrite N.compare_refl. eauto.
  - subst. now apply N.compare_lt_iff in E' as ->.
  - subst. now apply N.compare_lt_iff in E as ->.
  - assert (x < z)%N as ->%N.compare_lt_iff by lia. reflexivity.
Qed.


Lemma string_compare_refl (a : string) : String.compare a a = Eq.
Proof.
  assert (H := String.compare_antisym a a).
  destruct (String.compare a a); simpl in H; congruence.
Qed.

Lemma str_lt_irrefl (a : string) : ~ str_lt a a.
Proof. unfold str_lt. rewrite string_compare_refl. discriminate. Qed.

Lemma strongly_sorted_map_names (ds : list datetime) :
  Forall (fun d => datetime_ok d = true) ds ->
  StronglySorted earlier_second ds ->
  StronglySorted str_lt (map get_backup_filename ds).
Proof.
  intros Hok Hs. induction Hs as [|d ds Hs IH Hall]; simpl.
  - constructor.
  - inversion Hok as [|? ? Hd Hds]; subst. constructor; [now apply IH|].
    rewrite Forall_forall in *. intros n Hn.
    apply in_map_iff in Hn. destruct Hn as (d' & <- & Hd').
    unfold str_lt. rewrite compare_get_backup_filename by auto.
    now apply Hall.
Qed.

Lemma strongly_sorted_nodup (l : list string) :
  StronglySorted str_lt l -> NoDup l.
Proof.
  induction 1 as [|a l Hs IH Hall]; constructor; [|assumption].
  intros Hin. rewrite Forall_forall in Hall.
  exact (str_lt_irrefl a (Hall a Hin)).
Qed.

End Identifiers.

(** ** Claim C3: identifiers *)

(** C3 (as amended). For every sequence of creations whose clock readings
    fall in strictly increasing clock seconds, the identifiers produced are
    strictly increasing as sortable strings and pairwise distinct; two
    readings in the same clock second yield the same identifier. *)
Theorem identifiers_increase_with_seconds (ds : list datetime) :
  Forall (fun d => datetime_ok d = true) ds ->
  StronglySorted earlier_second ds ->
  StronglySorted str_lt (map get_backup_filename ds) /\
  NoDup (map get_backup_filename ds) /\
  (forall d1 d2, In d1 ds -> same_second d1 d2 ->
                 get_backup_filename d1 = get_backup_filename d2).
Proof.
  intros Hok Hs.
  assert (H := strongly_sorted_map_names ds Hok Hs).
  split; [exact H|]. split; [now apply strongly_sorted_nodup|].
  intros d1 d2 _ Hsame. unfold same_second, to_second in Hsame.
  unfold get_backup_filename, strftime_Ymd_HMS.
  injection Hsame as -> -> -> -> -> ->. reflexivity.
Qed.

Lemma identifiers_increase_with_seconds_witness :
  StronglySorted str_lt
    (map get_backup_filename
       [ {| year := 2024; month := 12; day := 31; hour := 23; minute := 59;
            second := 59; microsecond := 999999 |};
         {| year := 2025; month := 1; day := 1; hour := 0; minute := 0;
            second := 0; microsecond := 0 |} ]).
Proof.
  apply (identifiers_increase_with_seconds
           [ {| year := 2024; month := 12; day := 31; hour := 23; minute := 59;
                second := 59; microsecond := 999999 |};
             {| year := 2025; month := 1; day := 1; hour := 0; minute := 0;
                second := 0; microsecond := 0 |} ]).
  - repeat constructor.
  - repeat constructor.
Defined.

(** Two creations in one clock second, the second reading a later time,
    return the same identifier. *)
Lemma identifiers_collide_within_a_second :
  ~ (forall (envA envB : create_env) (s sA sB : fs) (idA idB : string),
       datetime_ok (now_name envA) = true ->
       datetime_ok (now_name envB) = true ->
       earlier (now_name envA) (now_name envB) ->
       create_backup Scenario.cfg envA "a" s = (Ok idA, sA) ->
       create_backup Scenario.cfg envB "b" sA = (Ok idB, sB) ->
       str_lt idA idB /\ idA <> idB).
Proof.
  intros H.
  destruct (H Scenario.early Scenario.late Scenario.fresh
              (state_after (create_backup Scenario.cfg Scenario.early "a") Scenario.fresh)
              (state_after (create_backup Scenario.cfg Scenario.late "b")
                 (state_after (create_backup Scenario.cfg Scenario.early "a")
                    Scenario.fresh))
              "backup_20240102_030405" "backup_20240102_030405")
    as [_ Hne]; try reflexivity.
  now apply Hne.
Qed.

(** ** Directory listings *)

Section Listings.

Lemma memb_In (x : string) (l : list string) : memb x l = true <-> In x l.
Proof.
  unfold memb. rewrite existsb_exists. split.
  - intros (y & Hy & E). apply String.eqb_eq in E. now subst.
  - intros H. exists x. split; [assumption | apply String.eqb_refl].
Qed.

Lemma memb_app (x : string) (a b : list string) :
  memb x (a ++ b) = memb x a || memb x b.
Proof. unfold memb. apply existsb_app. Qed.

Lemma lookup_filter (keep : string -> bool) (x : string) (d : listing) :
  lookup x (filter (fun e => keep (fst e)) d) =
  if keep x then lookup x d else None.
Proof.
  induction d as [|[n y] d IH]; simpl.
  - now destruct (keep x).
  - destruct (keep n) eqn:Kn; simpl.
    + destruct (String.eqb_spec n x) as [->|Hne].
      * now rewrite Kn.
      * exact IH.
    + destruct (String.eqb_spec n x) as [->|Hne].
      * now rewrite IH, Kn.
      * exact IH.
Qed.

Lemma lookup_prune (K : list string) (x : string) (d : listing) :
  lookup x (prune K d) = if memb x K then None else lookup x d.
Proof.
  unfold prune. rewrite (lookup_filter (fun n => negb (memb n K))).
  now destruct (memb x K).
Qed.

Lemma prune_nil (d : listing) : prune [] d = d.
Proof.
  unfold prune. induction d as [|e d IH]; simpl; [reflexivity | now f_equal].
Qed.

Lemma remove_prune (n : string) (K : list string) (d : listing) :
  remove n (prune K d) = prune (n :: K) d.
Proof.
  unfold remove, prune. induction d as [|[m y] d IH]; simpl; [reflexivity|].
  rewrite (String.eqb_sym m n).
  destruct (memb m K) eqn:E; simpl.
  - rewrite IH. now rewrite orb_true_r.
  - rewrite IH. rewrite (String.eqb_sym n m), orb_false_r. reflexivity.
Qed.

Lemma lookup_In (n : string) (x : node) (d : listing) :
  lookup n d = Some x -> In (n, x) d.
Proof.
  induction d as [|[m y] d IH]; simpl; [discriminate|].
  destruct (String.eqb_spec m n) as [->|Hne].
  - intros [= ->]. now left.
  - intros H. right. now apply IH.
Qed.

Lemma lookup_None (n : string) (d : listing) :
  lookup n d = None <-> ~ In n (map fst d).
Proof.
  induction d as [|[m y] d IH]; simpl; [tauto|].
  destruct (String.eqb_spec m n) as [->|Hne].
  - split; [discriminate | tauto].
  - rewrite IH. tauto.
Qed.

Lemma In_lookup (n : string) (x : node) (d : listing) :
  unique_names d -> In (n, x) d -> lookup n d = Some x.
Proof.
  unfold unique_names.
  induction d as [|[m y] d IH]; simpl; [tauto|].
  intros Hu [H|H].
  - injection H as -> ->. now rewrite String.eqb_refl.
  - inversion Hu as [|? ? Hnot Hu']; subst.
    destruct (String.eqb_spec m n) as [->|Hne].
    + exfalso. apply Hnot. apply in_map_iff. now exists (n, x).
    + now apply IH.
Qed.

Lemma unique_namesb_spec (d : listing) :
  unique_namesb d = true <-> unique_names d.
Proof.
  unfold unique_names. induction d as [|[n x] d IH]; simpl.
  - split; [constructor | reflexivity].
  - destruct (lookup n d) eqn:E.
    + split; [discriminate|]. intros H. inversion H as [|? ? Hnot _]; subst.
      exfalso. apply Hnot. apply lookup_In in E.
      apply in_map_iff. now exists (n, n0).
    + rewrite IH. apply lookup_None in E. split.
      * intros H. now constructor.
      * intros H. now inversion H.
Qed.

Lemma unique_names_filter (f : string * node -> bool) (d : listing) :
  unique_names d -> unique_names (filter f d).
Proof.
  unfold unique_names. induction d as [|e d IH]; simpl; [auto|].
  intros H. inversion H as [|? ? Hnot Hu]; subst.
  destruct (f e); simpl; [|auto].
  constructor; [|auto].
  intros Hin. apply Hnot. apply in_map_iff in Hin.
  destruct Hin as (e' & E & Hin). apply filter_In in Hin.
  apply in_map_iff. exists e'. tauto.
Qed.


End Listings.

(** ** The catalog scan *)

Section Scan.

Lemma In_filter_map {A B} (f : A -> option B) (l : list A) (y : B) :
  In y (filter_map f l) <-> exists x, In x l /\ f x = Some y.
Proof.
  induction l as [|a l IH]; simpl.
  - split; [tauto | intros (x & [] & _)].
  - destruct (f a) eqn:E; simpl; rewrite IH; split.
    + intros [<-|(x & Hx & Hf)]; [exists a; auto | exists x; auto].
    + intros (x & [<-|Hx] & Hf); [left; congruence | right; eauto].
    + intros (x & Hx & Hf); exists x; auto.
    + intros (x & [<-|Hx] & Hf); [congruence | eauto].
Qed.

Lemma read_metadata_Some (o : option node) (doc : metadata) :
  read_metadata o = Some doc <-> exists len, o = Some (File (Json len doc)).
Proof.
  unfold read_metadata. destruct o as [[[ | len m | ] | ]|]; split;
    try discriminate; try (intros [? [=]]; fail).
  - intros [= ->]. now exists len.
  - intros [len' [= -> ->]]. reflexivity.
Qed.

Lemma sidecar_inj (a b : string) : sidecar_of a = sidecar_of b -> a = b.
Proof.
  unfold sidecar_of. intros H.
  now destruct (append_suffix_inj a b _ _ eq_refl H).
Qed.

Lemma sidecar_not_zip (a base : string) : sidecar_of a <> base +++ ".zip".
Proof.
  unfold sidecar_of. intros H.
  change "_metadata.json" with ("_metadata." +++ "json") in H.
  rewrite <- append_assoc in H.
  destruct (append_suffix_inj _ _ "json" ".zip" eq_refl H) as [_ E].
  discriminate.
Qed.

Lemma zip_name_split (n : string) :
  Str.endswith n ".zip" = true -> n = Str.drop_last 4 n +++ ".zip".
Proof.
  intros H. apply endswith_iff in H. destruct H as [pre ->].
  assert (E := drop_last_append pre ".zip"). cbn [String.length] in E.
  now rewrite E.
Qed.

(** What an element of the scan says about the directory it was read from. *)
Lemma scan_item_compressed (d : listing) (n : string) (x : node) (b : backup_info) :
  scan_item d (n, x) = Some b -> bi_type b = compressed ->
  bi_path b = n /\ n = bi_name b +++ ".zip" /\
  exists len, lookup (sidecar_of (bi_name b)) d = Some (File (Json len (bi_metadata b))).
Proof.
  unfold scan_item. destruct (Str.endswith n ".zip") eqn:E.
  - destruct (read_metadata _) as [doc|] eqn:R; [|discriminate].
    intros [= <-] _. simpl. split; [reflexivity|]. split.
    + now apply zip_name_split.
    + now apply read_metadata_Some.
  - destruct x as [f|sub]; [discriminate|].
    destruct (read_metadata _); [|discriminate].
    intros [= <-]. discriminate.
Qed.

Lemma scan_item_directory (d : listing) (n : string) (x : node) (b : backup_info) :
  scan_item d (n, x) = Some b -> bi_type b = directory ->
  bi_path b = n /\ bi_name b = n /\ Str.endswith n ".zip" = false /\
  exists sub len, x = Dir sub /\
    lookup "metadata.json" sub = Some (File (Json len (bi_metadata b))).
Proof.
  unfold scan_item. destruct (Str.endswith n ".zip") eqn:E.
  - destruct (read_metadata _); [|discriminate]. intros [= <-]. discriminate.
  - destruct x as [f|sub]; [discriminate|].
    destruct (read_metadata _) as [doc|] eqn:R; [|discriminate].
    intros [= <-] _. simpl. repeat split.
    apply read_metadata_Some in R. destruct R as [len R]. now exists sub, len.
Qed.

Lemma scan_item_path (d : listing) (n : string) (x : node) (b : backup_info) :
  scan_item d (n, x) = Some b -> bi_path b = n.
Proof.
  intros H. destruct (bi_type b) eqn:T.
  - now destruct (scan_item_compressed d n x b H T).
  - now destruct (scan_item_directory d n x b H T).
Qed.

Lemma In_scan (d : listing) (b : backup_info) :
  In b (scan d) <-> exists x, In (bi_path b, x) d /\ scan_item d (bi_path b, x) = Some b.
Proof.
  unfold scan. rewrite In_filter_map. split.
  - intros ([n x] & Hin & Hs). assert (E := scan_item_path _ _ _ _ Hs).
    subst n. now exists x.
  - intros (x & Hin & Hs). now exists (bi_path b, x).
Qed.

(** An element of the scan is determined by the entry it was read from. *)
Lemma scan_path_inj (d : listing) (b b' : backup_info) :
  unique_names d -> In b (scan d) -> In b' (scan d) ->
  bi_path b = bi_path b' -> b = b'.
Proof.
  intros Hu Hb Hb' E. apply In_scan in Hb, Hb'.
  destruct Hb as (x & Hin & Hs), Hb' as (x' & Hin' & Hs').
  rewrite <- E in Hin', Hs'.
  apply (In_lookup _ _ _ Hu) in Hin, Hin'.
  assert (x = x') by congruence. subst. congruence.
Qed.

Lemma scan_paths_NoDup (d : listing) :
  unique_names d -> NoDup (map bi_path (scan d)).
Proof.
  unfold unique_names, scan.
  assert (G : forall d0 l, NoDup (map fst l) ->
            NoDup (map bi_path (filter_map (scan_item d0) l)) /\
            (forall p, In p (map bi_path (filter_map (scan_item d0) l)) ->
                       In p (map fst l))).
  { intros d0 l. induction l as [|[n x] l IH]; cbn [filter_map map fst].
    - intros _. split; [constructor | tauto].
    - intros H. inversion H as [|? ? Hnot Hu]; subst.
      destruct (IH Hu) as [IH1 IH2].
      destruct (scan_item d0 (n, x)) as [b|] eqn:E; cbn [map].
      + apply scan_item_path in E. subst n. split.
        * constructor; [|assumption]. intros Hin. apply Hnot. now apply IH2.
        * intros p [<-|Hp]; [now left | right; now apply IH2].
      + split; [assumption|]. intros p Hp. right. now apply IH2. }
  intros H. now apply G.
Qed.

(** The sidecar of a listed compressed archive is no listed entry. *)
Lemma sidecar_not_path (d : listing) (b b' : backup_info) :
  unique_names d -> In b (scan d) -> In b' (scan d) ->
  bi_type b = compressed -> sidecar_of (bi_name b) <> bi_path b'.
Proof.
  intros Hu Hb Hb' T E. apply In_scan in Hb, Hb'.
  destruct Hb as (x & Hin & Hs), Hb' as (x' & Hin' & Hs').
  destruct (scan_item_compressed _ _ _ _ Hs T) as (_ & _ & len & Hside).
  destruct (bi_type b') eqn:T'.
  - destruct (scan_item_compressed _ _ _ _ Hs' T') as (_ & Hn & _).
    rewrite Hn in E. now apply sidecar_not_zip in E.
  - destruct (scan_item_directory _ _ _ _ Hs' T') as (_ & _ & _ & sub & len' & -> & _).
    apply (In_lookup _ _ _ Hu) in Hin'. congruence.
Qed.

Lemma compressed_path (d : listing) (b : backup_info) :
  In b (scan d) -> bi_type b = compressed ->
  bi_path b = bi_name b +++ ".zip".
Proof.
  intros Hb T. apply In_scan in Hb. destruct Hb as (x & _ & Hs).
  now destruct (scan_item_compressed _ _ _ _ Hs T) as (_ & ? & _).
Qed.

(** The entries removed for two different listed archives are different. *)
Lemma targets_disjoint (d : listing) (b b' : backup_info) :
  unique_names d -> In b (scan d) -> In b' (scan d) ->
  bi_path b <> bi_path b' ->
  forall t, In t (targets b) -> ~ In t (targets b').
Proof.
  intros Hu Hb Hb' Hne t Ht Ht'.
  unfold targets in Ht, Ht'.
  destruct (bi_type b) eqn:T, (bi_type b') eqn:T'; simpl in Ht, Ht';
    repeat match goal with H : _ \/ _ |- _ => destruct H | H : False |- _ => destruct H end;
    subst t.
  all: try congruence.
  all: try (match goal with
            | H : sidecar_of _ = sidecar_of _ |- _ =>
                apply sidecar_inj in H; apply Hne;
                rewrite (compressed_path d b Hb T), (compressed_path d b' Hb' T');
                congruence
            end).
  all: match goal with
       | H : sidecar_of _ = bi_path _ |- _ =>
           eapply sidecar_not_path; [exact Hu | | | | exact H]; eassumption
       | H : bi_path _ = sidecar_of _ |- _ =>
           eapply sidecar_not_path; [exact Hu | | | | exact (eq_sym H)]; eassumption
       end.
Qed.

End Scan.

(** ** Deleting archives *)

Section Deletion.

Variable d0 : listing.
Hypothesis Hu : unique_names d0.

Lemma memb_cons (t n : string) (K : list string) :
  memb t (n :: K) = (t =? n) || memb t K.
Proof. reflexivity. Qed.

(** Deleting a listed archive none of whose entries is gone yet. *)
Lemma delete_backup_prune (b : backup_info) (K : list string) :
  In b (scan d0) ->
  (forall t, In t (targets b) -> memb t K = false) ->
  delete_backup b (prune K d0) =
  if deletable d0 b then prune (targets b ++ K) d0 else prune K d0.
Proof.
  intros Hb Hfresh. unfold delete_backup, deletable, targets in *.
  destruct (bi_type b) eqn:T.
  - assert (Hp : memb (bi_path b) K = false) by (apply Hfresh; simpl; auto).
    assert (Hs : memb (sidecar_of (bi_name b)) K = false) by (apply Hfresh; simpl; auto).
    assert (Hne : sidecar_of (bi_name b) <> bi_path b)
      by (now apply (sidecar_not_path d0 b b)).
    apply In_scan in Hb. destruct Hb as (x & Hin & Hscan).
    destruct (scan_item_compressed _ _ _ _ Hscan T) as (_ & _ & len & Hside).
    unfold os_remove at 1. rewrite lookup_prune, Hp.
    destruct (lookup (bi_path b) d0) as [[f|sub]|]; try reflexivity.
    rewrite remove_prune.
    assert (Hl : lookup (sidecar_of (bi_name b)) (prune (bi_path b :: K) d0)
                 = Some (File (Json len (bi_metadata b)))).
    { rewrite lookup_prune, memb_cons, Hs.
      destruct (String.eqb_spec (sidecar_of (bi_name b)) (bi_path b)); [contradiction|].
      exact Hside. }
    rewrite Hl. unfold os_remove. rewrite Hl. rewrite remove_prune. reflexivity.
  - assert (Hp : memb (bi_path b) K = false) by (apply Hfresh; simpl; auto).
    unfold shutil_rmtree. rewrite lookup_prune, Hp.
    destruct (lookup (bi_path b) d0) as [[f|sub]|]; try reflexivity.
    now rewrite remove_prune.
Qed.


Lemma memb_kills (old : list backup_info) (K : list string) (t : string) :
  memb t (kills d0 old K) =
  memb t K || existsb (fun b => deletable d0 b && memb t (targets b)) old.
Proof.
  revert K; induction old as [|b old IH]; intros K; simpl.
  - now rewrite orb_false_r.
  - unfold kills in *. simpl. rewrite IH.
    destruct (deletable d0 b); simpl; [|reflexivity].
    rewrite memb_app.
    destruct (memb t (targets b)), (memb t K); reflexivity.
Qed.

(** Deleting listed archives, pairwise different, in turn. *)
Lemma delete_all_prune (old : list backup_info) (K : list string) :
  Forall (fun b => In b (scan d0)) old ->
  NoDup (map bi_path old) ->
  Forall (fun b => forall t, In t (targets b) -> memb t K = false) old ->
  delete_all old (prune K d0) = prune (kills d0 old K) d0.
Proof.
  revert K; induction old as [|b old IH]; intros K Hl Hnd Hfresh.
  - reflexivity.
  - inversion Hl as [|? ? Hb Hl']; subst.
    inversion Hnd as [|? ? Hnot Hnd']; subst.
    inversion Hfresh as [|? ? Hfb Hfresh']; subst.
    unfold delete_all, kills in *. cbn [fold_left].
    rewrite delete_backup_prune by assumption.
    destruct (deletable d0 b); [|now apply IH].
    apply IH; try assumption.
    rewrite Forall_forall in *. intros b' Hb' t Ht.
    rewrite memb_app. rewrite (Hfresh' b' Hb' t Ht), orb_false_r.
    destruct (memb t (targets b)) eqn:E; [|reflexivity].
    exfalso. apply memb_In in E.
    refine (targets_disjoint d0 b b' Hu Hb (Hl' b' Hb') _ t E Ht).
    intros Heq. apply Hnot. rewrite Heq. now apply in_map.
Qed.

(** Among listed archives, the entries gone are those of the deleted ones. *)
Lemma path_in_targets (b b' : backup_info) :
  In b (scan d0) -> In b' (scan d0) ->
  memb (bi_path b) (targets b') = true -> b = b'.
Proof.
  intros Hb Hb' H. apply memb_In in H. unfold targets in H.
  apply (scan_path_inj d0); try assumption.
  destruct (bi_type b') eqn:T'; simpl in H.
  - destruct H as [H|[H|[]]]; [|congruence].
    exfalso. now apply (sidecar_not_path d0 b' b Hu Hb' Hb T').
  - destruct H as [H|[]]. congruence.
Qed.

Lemma sidecar_in_targets (b b' : backup_info) :
  In b (scan d0) -> In b' (scan d0) -> bi_type b = compressed ->
  memb (sidecar_of (bi_name b)) (targets b') = true -> b = b'.
Proof.
  intros Hb Hb' T H. apply memb_In in H. unfold targets in H.
  apply (scan_path_inj d0); try assumption.
  destruct (bi_type b') eqn:T'; simpl in H.
  - destruct H as [H|[H|[]]].
    + apply sidecar_inj in H.
      rewrite (compressed_path d0 b Hb T), (compressed_path d0 b' Hb' T').
      congruence.
    + exfalso. now apply (sidecar_not_path d0 b b' Hu Hb Hb' T).
  - destruct H as [H|[]].
    exfalso. now apply (sidecar_not_path d0 b b' Hu Hb Hb' T).
Qed.

Lemma path_killed (old : list backup_info) (b : backup_info) :
  Forall (fun b => In b (scan d0)) old -> In b (scan d0) ->
  memb (bi_path b) (kills d0 old []) = true <-> In b old /\ deletable d0 b = true.
Proof.
  intros Hl Hb. rewrite memb_kills. simpl. rewrite existsb_exists.
  rewrite Forall_forall in Hl. split.
  - intros (b' & Hb' & H). apply andb_true_iff in H. destruct H as [Hd Hm].
    assert (b = b') by (apply path_in_targets; auto). now subst.
  - intros [Hin Hd]. exists b. split; [assumption|].
    rewrite Hd. simpl. apply memb_In. unfold targets.
    destruct (bi_type b); simpl; auto.
Qed.

Lemma sidecar_killed (old : list backup_info) (b : backup_info) :
  Forall (fun b => In b (scan d0)) old -> In b (scan d0) ->
  bi_type b = compressed ->
  memb (sidecar_of (bi_name b)) (kills d0 old []) = true ->
  memb (bi_path b) (kills d0 old []) = true.
Proof.
  intros Hl Hb T H. apply path_killed; try assumption.
  rewrite memb_kills in H. simpl in H. apply existsb_exists in H.
  destruct H as (b' & Hb' & H). apply andb_true_iff in H. destruct H as [Hd Hm].
  rewrite Forall_forall in Hl.
  assert (b = b') by (apply sidecar_in_targets; auto). now subst.
Qed.

End Deletion.

(** ** The newest-first order *)

Section Sorting.

Lemma insert_perm (x : backup_info) (l : list backup_info) :
  Permutation (insert_newest_first x l) (x :: l).
Proof.
  induction l as [|y l IH]; simpl; [reflexivity|].
  destruct (timestamp_of x <? timestamp_of y)%Z; [|reflexivity].
  rewrite IH. apply perm_swap.
Qed.

Lemma sort_perm (l : list backup_info) : Permutation (sort_newest_first l) l.
Proof.
  induction l as [|x l IH]; simpl; [reflexivity|].
  rewrite insert_perm. now constructor.
Qed.

Lemma insert_newest (x : backup_info) (l : list backup_info) :
  newest_first l -> newest_first (insert_newest_first x l).
Proof.
  unfold newest_first. induction 1 as [|y l Hs IH Hall]; simpl.
  - repeat constructor.
  - destruct (Z.ltb_spec (timestamp_of x) (timestamp_of y)) as [Hlt|Hge].
    + constructor; [assumption|].
      rewrite Forall_forall in *. intros z Hz.
      apply (Permutation_in _ (insert_perm x l)) in Hz.
      destruct Hz as [<-|Hz]; [lia | now apply Hall].
    + constructor; [now constructor|].
      constructor; [assumption|].
      rewrite Forall_forall in *. intros z Hz. specialize (Hall z Hz). lia.
Qed.

Lemma sort_newest (l : list backup_info) : newest_first (sort_newest_first l).
Proof.
  induction l as [|x l IH]; simpl; [constructor | now apply insert_newest].
Qed.

(** Filtering commutes with the stable sort. *)
Lemma filter_insert (p : backup_info -> bool) (x : backup_info)
    (l : list backup_info) :
  newest_first l ->
  filter p (insert_newest_first x l) =
  if p x then insert_newest_first x (filter p l) else filter p l.
Proof.
  unfold newest_first. induction 1 as [|y l Hs IH Hall]; simpl.
  - now destruct (p x).
  - destruct (Z.ltb_spec (timestamp_of x) (timestamp_of y)) as [Hlt|Hge]; simpl.
    + rewrite IH. destruct (p y), (p x); simpl; try reflexivity.
      destruct (Z.ltb_spec (timestamp_of x) (timestamp_of y)); [reflexivity | lia].
    + destruct (p x); [|reflexivity].
      destruct (p y); simpl.
      * destruct (Z.ltb_spec (timestamp_of x) (timestamp_of y)); [lia | reflexivity].
      * (* the head of the filtered tail is no newer than [y] *)
        destruct (filter p l) as [|z l'] eqn:E; simpl; [reflexivity|].
        assert (Hz : In z l).
        { assert (In z (filter p l)) by (rewrite E; now left).
          now apply filter_In in H. }
        rewrite Forall_forall in Hall. specialize (Hall z Hz).
        destruct (Z.ltb_spec (timestamp_of x) (timestamp_of z)); [lia | reflexivity].
Qed.

Lemma filter_sort (p : backup_info -> bool) (l : list backup_info) :
  sort_newest_first (filter p l) = filter p (sort_newest_first l).
Proof.
  induction l as [|x l IH]; simpl; [reflexivity|].
  rewrite filter_insert by apply sort_newest.
  destruct (p x); simpl; now rewrite IH.
Qed.

Lemma forallb_sort (p : backup_info -> bool) (l : list backup_info) :
  forallb p (sort_newest_first l) = forallb p l.
Proof.
  destruct (forallb p l) eqn:E.
  - rewrite forallb_forall in *. intros x Hx. apply E.
    now apply (Permutation_in _ (sort_perm l)).
  - destruct (forallb p (sort_newest_first l)) eqn:E'; [|reflexivity].
    rewrite <- E. symmetry. rewrite forallb_forall in *. intros x Hx. apply E'.
    now apply (Permutation_in _ (Permutation_sym (sort_perm l))).
Qed.

Lemma forallb_filter {A} (p q : A -> bool) (l : list A) :
  forallb p l = true -> forallb p (filter q l) = true.
Proof.
  rewrite !forallb_forall. intros H x Hx. apply H. now apply filter_In in Hx.
Qed.




End Sorting.

(** ** The catalog after entries are removed *)

Section ScanPrune.

Variable d0 : listing.
Variable K : list string.
Hypothesis Hu : unique_names d0.

(** No listed compressed archive that stays loses its sidecar. *)
Hypothesis Hclosed :
  forall b, In b (scan d0) -> bi_type b = compressed ->
            memb (bi_path b) K = false ->
            memb (sidecar_of (bi_name b)) K = false.

Lemma scan_item_prune (n : string) (x : node) :
  In (n, x) d0 -> memb n K = false ->
  scan_item (prune K d0) (n, x) = scan_item d0 (n, x).
Proof.
  intros Hin Hn.
  destruct (scan_item d0 (n, x)) as [b|] eqn:E.
  - assert (Hb : In b (scan d0)).
    { apply In_scan. assert (P := scan_item_path _ _ _ _ E). subst n. eauto. }
    unfold scan_item in *. destruct (Str.endswith n ".zip") eqn:Z; [|exact E].
    rewrite lookup_prune.
    destruct (read_metadata (lookup (sidecar_of (Str.drop_last 4 n)) d0))
      as [doc|] eqn:R; [|discriminate].
    injection E as <-.
    assert (Hs := Hclosed _ Hb eq_refl Hn). cbn [bi_name] in Hs.
    now rewrite Hs, R.
  - unfold scan_item in *. destruct (Str.endswith n ".zip") eqn:Z; [|exact E].
    rewrite lookup_prune.
    destruct (memb (sidecar_of (Str.drop_last 4 n)) K); [reflexivity|].
    exact E.
Qed.

Lemma scan_prune :
  scan (prune K d0) =
  filter (fun b => negb (memb (bi_path b) K)) (scan d0).
Proof.
  unfold scan.
  assert (G : forall l, incl l d0 ->
            filter_map (scan_item (prune K d0)) (prune K l) =
            filter (fun b => negb (memb (bi_path b) K))
                   (filter_map (scan_item d0) l)).
  { induction l as [|[n x] l IH]; intros Hincl; [reflexivity|].
    assert (Hin : In (n, x) d0) by (apply Hincl; now left).
    assert (Hl : incl l d0) by (intros e He; apply Hincl; now right).
    specialize (IH Hl).
    assert (Hc : prune K ((n, x) :: l) =
                 if memb n K then prune K l else (n, x) :: prune K l).
    { unfold prune. cbn [filter fst]. now destruct (memb n K). }
    rewrite Hc. cbn [filter_map].
    destruct (memb n K) eqn:Hn.
    - rewrite IH. destruct (scan_item d0 (n, x)) as [b|] eqn:E; [|reflexivity].
      cbn [filter]. rewrite (scan_item_path _ _ _ _ E), Hn. reflexivity.
    - cbn [filter_map]. rewrite (scan_item_prune n x Hin Hn).
      destruct (scan_item d0 (n, x)) as [b|] eqn:E; [|exact IH].
      cbn [filter]. rewrite (scan_item_path _ _ _ _ E), Hn. cbn [negb].
      now rewrite IH. }
  apply G. apply incl_refl.
Qed.

End ScanPrune.

(** ** What retention trimming does *)

Section Retention.

Variable cfg : config.
Variable s : fs.
Variable d0 : listing.
Variable l : list backup_info.
Hypothesis Hroot : backup_root s = Some d0.
Hypothesis Hu : unique_names d0.
Hypothesis Hlist : list_backups s = Ok l.

Lemma list_is_sorted_scan :
  l = sort_newest_first (scan d0) /\ forallb has_timestamp (scan d0) = true.
Proof.
  unfold list_backups in Hlist. rewrite Hroot in Hlist.
  destruct (forallb has_timestamp (scan d0)); [|discriminate].
  injection Hlist as <-. now split.
Qed.

Lemma listed_iff (b : backup_info) : In b l <-> In b (scan d0).
Proof.
  destruct list_is_sorted_scan as [-> _]. split; intros H.
  - now apply (Permutation_in _ (sort_perm _)).
  - now apply (Permutation_in _ (Permutation_sym (sort_perm _))).
Qed.

Lemma list_paths_NoDup : NoDup (map bi_path l).
Proof.
  destruct list_is_sorted_scan as [-> _].
  apply (Permutation_NoDup (l := map bi_path (scan d0))).
  - apply Permutation_map. apply Permutation_sym, sort_perm.
  - now apply scan_paths_NoDup.
Qed.


(** The catalog once the elements of a part [old] of the listing have been
    deleted in turn: the root loses the entries of those that could be
    deleted, and the listing loses exactly these. *)
Lemma delete_all_spec (old : list backup_info) :
  incl old l -> NoDup (map bi_path old) ->
  delete_all old d0 = prune (kills d0 old []) d0 /\
  list_backups (with_backups (delete_all old d0) s) =
    Ok (filter (fun b => negb (memb (bi_path b) (kills d0 old []))) l).
Proof.
  intros Hincl Hnd.
  assert (Hold : Forall (fun b => In b (scan d0)) old).
  { apply Forall_forall. intros b Hb. now apply listed_iff, Hincl. }
  assert (E : delete_all old d0 = prune (kills d0 old []) d0).
  { rewrite <- (prune_nil d0) at 1. apply delete_all_prune; try assumption.
    apply Forall_forall. intros; reflexivity. }
  split; [exact E|].
  rewrite E. unfold list_backups. cbn [with_backups backup_root].
  rewrite scan_prune; try assumption.
  - destruct list_is_sorted_scan as [-> Hts].
    rewrite forallb_filter by assumption.
    now rewrite filter_sort.
  - intros b Hb T Hp.
    destruct (memb (sidecar_of (bi_name b)) (kills d0 old [])) eqn:Hs; [|reflexivity].
    rewrite (sidecar_killed d0 Hu old b Hold Hb T Hs) in Hp. discriminate.
Qed.

(** The selection [backups[-backups_to_delete:]] is what follows the first
    [keep_count] elements. *)
Lemma slice_old :
  (Z.of_nat (List.length l) <=? max_backups cfg)%Z = false ->
  slice_from (- (Z.of_nat (List.length l) - max_backups cfg)) l = skipn (keep_count cfg) l.
Proof.
  intros H. apply Z.leb_gt in H. unfold slice_from, keep_count.
  destruct (Z.ltb_spec (- (Z.of_nat (List.length l) - max_backups cfg)) 0); [|lia].
  f_equal. f_equal. lia.
Qed.


Lemma old_incl : incl (skipn (keep_count cfg) l) l.
Proof.
  intros b Hb. rewrite <- (firstn_skipn (keep_count cfg) l). apply in_or_app. now right.
Qed.

Lemma old_NoDup : NoDup (map bi_path (skipn (keep_count cfg) l)).
Proof.
  assert (H := list_paths_NoDup).
  rewrite <- (firstn_skipn (keep_count cfg) l), map_app in H.
  now apply NoDup_app_remove_l in H.
Qed.

Lemma cleanup_eq :
  cleanup_old_backups cfg s =
  if (Z.of_nat (List.length l) <=? max_backups cfg)%Z then s
  else with_backups (prune (kills d0 (skipn (keep_count cfg) l) []) d0) s.
Proof.
  unfold cleanup_old_backups. rewrite Hlist.
  destruct (Z.of_nat (List.length l) <=? max_backups cfg)%Z eqn:E; [reflexivity|].
  rewrite Hroot, (slice_old E).
  now destruct (delete_all_spec _ old_incl old_NoDup) as [-> _].
Qed.



End Retention.

(** ** Claims C2, C8 and C10: retention trimming *)

Section RetentionClaims.

Lemma root_ok_unique (s : fs) (d : listing) :
  root_ok s = true -> backup_root s = Some d -> unique_names d.
Proof.
  unfold root_ok. intros H E. rewrite E in H. now apply unique_namesb_spec.
Qed.



Lemma with_backups_twice (d d' : listing) (s : fs) :
  with_backups d (with_backups d' s) = with_backups d s.
Proof. reflexivity. Qed.


Lemma scan_item_prune_None (d0 : listing) (K : list string) (n : string) (x : node) :
  scan_item d0 (n, x) = None -> scan_item (prune K d0) (n, x) = None.
Proof.
  unfold scan_item. destruct (Str.endswith n ".zip"); [|auto].
  rewrite lookup_prune.
  destruct (memb (sidecar_of (Str.drop_last 4 n)) K); [reflexivity | auto].
Qed.

Lemma In_prune (K : list string) (d : listing) (n : string) (x : node) :
  In (n, x) (prune K d) <-> In (n, x) d /\ memb n K = false.
Proof.
  unfold prune. rewrite filter_In. cbn [fst].
  destruct (memb n K); simpl; intuition congruence.
Qed.

Lemma killed_is_target (d0 : listing) (old : list backup_info) (n : string) :
  memb n (kills d0 old []) = true ->
  exists b, In b old /\ In n (targets b).
Proof.
  rewrite memb_kills. simpl. rewrite existsb_exists.
  intros (b & Hb & H). apply andb_true_iff in H. destruct H as [_ H].
  exists b. split; [assumption | now apply memb_In].
Qed.

(** An entry that is no listed archive and is an archive file or a
    directory is not among the entries removed for a listed archive. *)
Lemma unlisted_not_target (d0 : listing) (n : string) (x : node) (b : backup_info) :
  unique_names d0 -> In (n, x) d0 -> scan_item d0 (n, x) = None ->
  Str.endswith n ".zip" = true \/ is_dir x = true ->
  In b (scan d0) -> ~ In n (targets b).
Proof.
  intros Hu Hin Hnone Hkind Hb Ht.
  assert (Hx := In_lookup _ _ _ Hu Hin).
  apply In_scan in Hb. destruct Hb as (x' & Hin' & Hs).
  unfold targets in Ht. destruct (bi_type b) eqn:T; simpl in Ht.
  - destruct (scan_item_compressed _ _ _ _ Hs T) as (_ & _ & len & Hside).
    destruct Ht as [<-|[<-|[]]].
    + rewrite Hside in Hx. injection Hx as <-.
      destruct Hkind as [Hz|Hd]; [|discriminate].
      apply endswith_iff in Hz. destruct Hz as [pre Hz].
      now apply sidecar_not_zip in Hz.
    + apply (In_lookup _ _ _ Hu) in Hin'. assert (x' = x) by congruence.
      subst. congruence.
  - destruct Ht as [<-|[]].
    apply (In_lookup _ _ _ Hu) in Hin'. assert (x' = x) by congruence.
    subst. congruence.
Qed.


Lemma cleanup_frame (cfg : config) (s : fs) :
  content_root (cleanup_old_backups cfg s) = content_root s /\
  config_store (cleanup_old_backups cfg s) = config_store s.
Proof.
  unfold cleanup_old_backups. destruct (list_backups s); [|now split].
  destruct (_ <=? _)%Z; [now split|].
  destruct (backup_root s); now split.
Qed.

End RetentionClaims.






(** C10. [cleanup_old_backups] only removes entries of the backup root that
    belong to an archive of the catalog listing, and it leaves the content
    tree and the configuration files alone; an archive file or a directory
    without a readable metadata record (an orphaned archive, a pre-restore
    snapshot) stays in place and stays outside the listing, so trimming
    never removes it. *)
Theorem cleanup_spares_unlisted (cfg : config) (s : fs) (d0 : listing) :
  backup_root s = Some d0 -> root_ok s = true ->
  exists d',
    backup_root (cleanup_old_backups cfg s) = Some d' /\
    content_root (cleanup_old_backups cfg s) = content_root s /\
    config_store (cleanup_old_backups cfg s) = config_store s /\
    (forall n x, In (n, x) d0 -> ~ In (n, x) d' ->
                 exists b, In b (catalog s) /\ In n (targets b)) /\
    (forall n x, In (n, x) d0 -> scan_item d0 (n, x) = None ->
                 Str.endswith n ".zip" = true \/ is_dir x = true ->
                 In (n, x) d' /\ scan_item d' (n, x) = None).
Proof.
  intros Hroot Hok.
  assert (Hu := root_ok_unique s d0 Hok Hroot).
  destruct (cleanup_frame cfg s) as [Hfc Hfs].
  assert (Hsame : cleanup_old_backups cfg s = s ->
                  exists d',
    backup_root (cleanup_old_backups cfg s) = Some d' /\
    content_root (cleanup_old_backups cfg s) = content_root s /\
    config_store (cleanup_old_backups cfg s) = config_store s /\
    (forall n x, In (n, x) d0 -> ~ In (n, x) d' ->
                 exists b, In b (catalog s) /\ In n (targets b)) /\
    (forall n x, In (n, x) d0 -> scan_item d0 (n, x) = None ->
                 Str.endswith n ".zip" = true \/ is_dir x = true ->
                 In (n, x) d' /\ scan_item d' (n, x) = None)).
  { intros E. exists d0. rewrite E. repeat split; auto. intros; contradiction. }
  destruct (list_backups s) as [l|e] eqn:Hlist.
  2:{ apply Hsame. unfold cleanup_old_backups. now rewrite Hlist. }
  assert (Hc := cleanup_eq cfg s d0 l Hroot Hu Hlist).
  destruct (Z.of_nat (List.length l) <=? max_backups cfg)%Z eqn:E;
    [now apply Hsame|].
  exists (prune (kills d0 (skipn (keep_count cfg) l) []) d0).
  rewrite Hc. split; [reflexivity|]. rewrite Hc in Hfc, Hfs.
  split; [exact Hfc|]. split; [exact Hfs|].
  assert (Hold : forall b, In b (skipn (keep_count cfg) l) -> In b l).
  { intros b Hb. now apply (old_incl cfg l). }
  split.
  - intros n x Hin Hnot.
    destruct (memb n (kills d0 (skipn (keep_count cfg) l) [])) eqn:M.
    + apply killed_is_target in M. destruct M as (b & Hb & Ht).
      exists b. split; [|assumption]. unfold catalog. rewrite Hlist. auto.
    + exfalso. apply Hnot. now apply In_prune.
  - intros n x Hin Hnone Hkind. split.
    + apply In_prune. split; [assumption|].
      destruct (memb n (kills d0 (skipn (keep_count cfg) l) [])) eqn:M;
        [|reflexivity].
      exfalso. apply killed_is_target in M. destruct M as (b & Hb & Ht).
      refine (unlisted_not_target d0 n x b Hu Hin Hnone Hkind _ Ht).
      apply (listed_iff s d0 l Hroot Hlist). auto.
    + now apply scan_item_prune_None.
Qed.

Lemma cleanup_spares_unlisted_witness :
  exists d',
    backup_root (cleanup_old_backups Scenario.cfg1 Scenario.with_orphans) = Some d' /\
    In ("lost.zip", File (Zip 9 [])) d' /\
    In ("pre_restore_backup_20240102_030406", Dir [("old.md", File (Raw "o"))]) d'.
Proof.
  destruct (cleanup_spares_unlisted Scenario.cfg1 Scenario.with_orphans
              Scenario.with_orphans_root eq_refl eq_refl)
    as (d' & Hd & _ & _ & _ & H).
  exists d'. split; [exact Hd|]. split.
  - apply H; [vm_compute; tauto | reflexivity | now left].
  - apply H; [vm_compute; tauto | reflexivity | now right].
Defined.

(** ** Operations on the backup root *)

Section FsOps.

Lemma lookup_set_entry_eq (n : string) (x : node) (d : listing) :
  lookup n (set_entry n x d) = Some x.
Proof.
  induction d as [|[m y] d IH]; simpl.
  - now rewrite String.eqb_refl.
  - destruct (String.eqb_spec m n) as [->|Hne]; simpl.
    + now rewrite String.eqb_refl.
    + destruct (String.eqb_spec m n); [contradiction | exact IH].
Qed.

Lemma lookup_set_entry_ne (m n : string) (x : node) (d : listing) :
  m <> n -> lookup m (set_entry n x d) = lookup m d.
Proof.
  intros Hne. induction d as [|[k y] d IH]; simpl.
  - destruct (String.eqb_spec n m); [congruence | reflexivity].
  - destruct (String.eqb_spec k n) as [->|Hkn]; simpl.
    + destruct (String.eqb_spec n m); [congruence | reflexivity].
    + destruct (String.eqb_spec k m); [reflexivity | exact IH].
Qed.

Lemma names_set_entry (n : string) (x : node) (d : listing) :
  map fst (set_entry n x d) =
  match lookup n d with
  | Some _ => map fst d
  | None => map fst d ++ [n]
  end.
Proof.
  induction d as [|[k y] d IH]; simpl; [reflexivity|].
  destruct (String.eqb_spec k n) as [->|Hkn]; simpl; [reflexivity|].
  rewrite IH. now destruct (lookup n d).
Qed.

Lemma unique_names_set_entry (n : string) (x : node) (d : listing) :
  unique_names d -> unique_names (set_entry n x d).
Proof.
  unfold unique_names. intros Hu. rewrite names_set_entry.
  destruct (lookup n d) eqn:E; [assumption|].
  apply lookup_None in E.
  apply NoDup_rev in Hu. rewrite <- (rev_involutive (map fst d ++ [n])).
  apply NoDup_rev. rewrite rev_app_distr. simpl.
  constructor; [|assumption]. now rewrite <- in_rev.
Qed.

Lemma set_entry_twice (n : string) (x y : node) (d : listing) :
  set_entry n x (set_entry n y d) = set_entry n x d.
Proof.
  induction d as [|[k z] d IH]; simpl.
  - now rewrite String.eqb_refl.
  - destruct (String.eqb_spec k n) as [->|Hkn]; simpl.
    + now rewrite String.eqb_refl.
    + destruct (String.eqb_spec k n); [contradiction | now rewrite IH].
Qed.

Lemma lookup_remove (m n : string) (d : listing) :
  lookup m (remove n d) = if m =? n then None else lookup m d.
Proof.
  unfold remove. rewrite (lookup_filter (fun k => negb (k =? n))).
  now destruct (m =? n).
Qed.

Lemma only_touches_refl (n : string) (d : listing) : only_touches n d d.
Proof. repeat split; eauto. Qed.

Lemma only_touches_trans (n : string) (d1 d2 d3 : listing) :
  only_touches n d1 d2 -> only_touches n d2 d3 -> only_touches n d1 d3.
Proof.
  intros (A1 & B1 & C1) (A2 & B2 & C2). repeat split.
  - intros m Hm. now rewrite A2, A1.
  - intros sub H. destruct (B1 sub H) as [sub' H']. now apply (B2 sub').
  - auto.
Qed.

Lemma only_touches_set_dir (n : string) (sub : listing) (d : listing) :
  only_touches n d (set_entry n (Dir sub) d).
Proof.
  repeat split.
  - intros m Hm. now apply lookup_set_entry_ne.
  - intros _ _. exists sub. apply lookup_set_entry_eq.
  - apply unique_names_set_entry.
Qed.

Lemma only_touches_set_file (n : string) (f : file) (d : listing) :
  (forall sub, lookup n d <> Some (Dir sub)) ->
  only_touches n d (set_entry n (File f) d).
Proof.
  intros Hnd. repeat split.
  - intros m Hm. now apply lookup_set_entry_ne.
  - intros sub H. now apply Hnd in H.
  - apply unique_names_set_entry.
Qed.

Lemma write_file_deep (n r : string) (rest : path) (f : file) (d : listing) :
  write_file (n :: r :: rest) f d =
  match lookup n d with
  | Some (Dir sub) =>
      match write_file (r :: rest) f sub with
      | Ok sub' => Ok (set_entry n (Dir sub') d)
      | Raise e => Raise e
      end
  | Some (File _) => Raise NotADirectoryError
  | None => Raise FileNotFoundError
  end.
Proof. reflexivity. Qed.

Lemma makedirs_deep (n r : string) (rest : path) (ok : bool) (d : listing) :
  makedirs (n :: r :: rest) ok d =
  match lookup n d with
  | None =>
      match makedirs (r :: rest) ok [] with
      | Ok sub' => Ok (set_entry n (Dir sub') d)
      | Raise e => Raise e
      end
  | Some (Dir sub) =>
      match makedirs (r :: rest) ok sub with
      | Ok sub' => Ok (set_entry n (Dir sub') d)
      | Raise e => Raise e
      end
  | Some (File _) => Raise NotADirectoryError
  end.
Proof. reflexivity. Qed.

Lemma write_file_touches (n : string) (rest : path) (f : file) (d d' : listing) :
  write_file (n :: rest) f d = Ok d' -> only_touches n d d'.
Proof.
  destruct rest as [|r rest].
  - cbn [write_file].
    destruct (lookup n d) as [[g|sub]|] eqn:E; try discriminate;
      intros [= <-]; apply only_touches_set_file; intros sub; congruence.
  - rewrite write_file_deep.
    destruct (lookup n d) as [[g|sub]|]; try discriminate.
    destruct (write_file (r :: rest) f sub); [|discriminate].
    intros [= <-]. apply only_touches_set_dir.
Qed.

Lemma makedirs_touches (n : string) (rest : path) (ok : bool) (d d' : listing) :
  makedirs (n :: rest) ok d = Ok d' -> only_touches n d d'.
Proof.
  destruct rest as [|r rest].
  - cbn [makedirs].
    destruct (lookup n d) as [[g|sub]|]; try discriminate.
    + destruct ok; [|discriminate]. intros [= <-]. apply only_touches_refl.
    + intros [= <-]. apply only_touches_set_dir.
  - rewrite makedirs_deep.
    destruct (lookup n d) as [[g|sub]|]; try discriminate.
    + destruct (makedirs (r :: rest) ok sub); [|discriminate].
      intros [= <-]. apply only_touches_set_dir.
    + destruct (makedirs (r :: rest) ok []); [|discriminate].
      intros [= <-]. apply only_touches_set_dir.
Qed.

Lemma extract_member_touches (temp : string) (member : path * file)
    (d d' : listing) :
  extract_member [temp] member d = Ok d' -> only_touches temp d d'.
Proof.
  unfold extract_member. cbn [app].
  destruct (sanitize (fst member)) as [|a arc] eqn:E.
  - cbn [removelast]. cbn [exists_path lookup_path].
    apply write_file_touches.
  - change (removelast (temp :: a :: arc)) with (temp :: removelast (a :: arc)).
    destruct (exists_path _ d).
    + apply write_file_touches.
    + destruct (makedirs _ false d) as [d1|] eqn:M; [|discriminate].
      intros W. apply makedirs_touches in M. apply write_file_touches in W.
      now apply (only_touches_trans _ _ d1).
Qed.

(** [copytree] to a fresh entry of the backup root. *)
Lemma copytree_new_top (src : option node) (n : string) (d d' : listing) :
  copytree_new src [n] d = Ok d' ->
  exists entries, src = Some (Dir entries) /\ lookup n d = None /\
                  d' = set_entry n (Dir entries) d.
Proof.
  unfold copytree_new. destruct src as [[f|entries]|]; try discriminate.
  unfold exists_path. cbn [lookup_path makedirs put_node].
  destruct (lookup n d) as [x|] eqn:E.
  - destruct x; discriminate.
  - intros [= <-]. exists entries. repeat split. apply set_entry_twice.
Qed.

End FsOps.

(** ** Restore: the steps and the staging directory *)

Section RestoreSteps.

Lemma bind_Ok_inv {A B} (m : M A) (k : A -> M B) (s s' : fs) (b : B) :
  bind m k s = (Ok b, s') ->
  exists a s1, m s = (Ok a, s1) /\ k a s1 = (Ok b, s').
Proof.
  unfold bind. destruct (m s) as [[a|e] s1]; [|discriminate].
  intros H. now exists a, s1.
Qed.

Lemma state_after_bind {A B} (m : M A) (k : A -> M B) (s : fs) :
  state_after (bind m k) s =
  match outcome m s with
  | Ok a => state_after (k a) (state_after m s)
  | Raise _ => state_after m s
  end.
Proof.
  unfold state_after, outcome, bind. now destruct (m s) as [[a|e] s1].
Qed.

Lemma outcome_bind {A B} (m : M A) (k : A -> M B) (s : fs) :
  outcome (bind m k) s =
  match outcome m s with
  | Ok a => outcome (k a) (state_after m s)
  | Raise e => Raise e
  end.
Proof.
  unfold state_after, outcome, bind. now destruct (m s) as [[a|e] s1].
Qed.

Lemma preserves_bind {A B} (P : fs -> Prop) (m : M A) (k : A -> M B) :
  preserves P m -> (forall a, preserves P (k a)) -> preserves P (bind m k).
Proof.
  intros Hm Hk s Hs. rewrite state_after_bind.
  destruct (outcome m s); [apply Hk|]; now apply Hm.
Qed.

Lemma preserves_ret {A} (P : fs -> Prop) (a : A) : preserves P (ret a).
Proof. intros s Hs. exact Hs. Qed.

Lemma preserves_for_each {A} (P : fs -> Prop) (xs : list A) (body : A -> M unit) :
  (forall x, preserves P (body x)) -> preserves P (for_each xs body).
Proof.
  intros Hb. induction xs as [|x xs IH]; cbn [for_each].
  - apply preserves_ret.
  - apply preserves_bind; auto.
Qed.

Lemma root_step_refl (temp : string) (s : fs) : root_step temp s s.
Proof.
  repeat split. intros d Hd. exists d. split; [assumption | apply only_touches_refl].
Qed.

Lemma root_step_trans (temp : string) (s1 s2 s3 : fs) :
  root_step temp s1 s2 -> root_step temp s2 s3 -> root_step temp s1 s3.
Proof.
  intros (A1 & B1 & C1) (A2 & B2 & C2). repeat split; try congruence.
  intros d Hd. destruct (A1 d Hd) as (d2 & Hd2 & T1).
  destruct (A2 d2 Hd2) as (d3 & Hd3 & T2).
  exists d3. split; [assumption | now apply (only_touches_trans _ _ d2)].
Qed.

Lemma on_backups_step (temp : string) (op : listing -> Result listing) (s : fs) :
  (forall d d', op d = Ok d' -> only_touches temp d d') ->
  root_step temp s (state_after (on_backups op) s).
Proof.
  intros Hop. unfold state_after, on_backups.
  destruct (backup_root s) as [d|] eqn:E; cbn [snd]; [|apply root_step_refl].
  destruct (op d) as [d'|e] eqn:O; cbn [snd]; [|apply root_step_refl].
  repeat split. intros d1 Hd1. exists d'. split; [reflexivity|].
  rewrite E in Hd1. injection Hd1 as <-. now apply Hop.
Qed.

Lemma bind_step {A B} (temp : string) (m : M A) (k : A -> M B) (s : fs) :
  (forall s0, root_step temp s0 (state_after m s0)) ->
  (forall a s0, root_step temp s0 (state_after (k a) s0)) ->
  root_step temp s (state_after (bind m k) s).
Proof.
  intros Hm Hk. rewrite state_after_bind. destruct (outcome m s); [|apply Hm].
  eapply root_step_trans; [apply Hm | apply Hk].
Qed.

Lemma for_each_step {A} (temp : string) (xs : list A) (body : A -> M unit) :
  (forall x s0, root_step temp s0 (state_after (body x) s0)) ->
  forall s, root_step temp s (state_after (for_each xs body) s).
Proof.
  intros Hb. induction xs as [|x xs IH]; intros s; cbn [for_each].
  - apply root_step_refl.
  - apply bind_step; auto.
Qed.

(** Step 3 only writes below the staging directory. *)
Lemma stage_step (info : backup_info) (temp : string) (s : fs) :
  root_step temp s (state_after (stage info temp) s).
Proof.
  unfold stage, state_after at 1.
  destruct (backup_root s) as [d|] eqn:E; [|apply root_step_refl].
  destruct (bi_type info).
  - destruct (lookup (bi_path info) d) as [[[ | | len members]|sub]|];
      try apply root_step_refl.
    apply (for_each_step temp members). intros member s0.
    apply on_backups_step. intros d1 d1'. apply extract_member_touches.
  - destruct (lookup (bi_path info) d) as [src|]; [|apply root_step_refl].
    destruct (lookup temp d) as [[f|cur]|]; try apply root_step_refl.
    destruct (bi_path info =? temp); [apply root_step_refl|].
    destruct (merge_tree src cur) as [merged err].
    assert (G : root_step temp s (with_backups (set_entry temp (Dir merged) d) s)).
    { repeat split. intros d1 Hd1. rewrite E in Hd1. injection Hd1 as <-.
      eexists. split; [reflexivity | apply only_touches_set_dir]. }
    destruct err; exact G.
Qed.

(** Step 4 does nothing, raises, or adds the copy as a fresh entry. *)
Lemma snapshot_cases (env : restore_env) (s : fs) (d : listing) :
  backup_root s = Some d ->
  (content_root s = None /\ snapshot_current env s = (Ok tt, s)) \/
  (exists e, snapshot_current env s = (Raise e, s)) \/
  (exists entries,
     content_root s = Some (Dir entries) /\
     lookup (snapshot_name env) d = None /\
     snapshot_current env s =
       (Ok tt, with_backups (set_entry (snapshot_name env) (Dir entries) d) s)).
Proof.
  intros Hd. unfold snapshot_current.
  destruct (content_root s) as [c|] eqn:C; [|now left].
  right. unfold on_backups. rewrite Hd.
  destruct (copytree_new (Some c) [snapshot_name env] d) as [d'|e] eqn:T.
  - right. apply copytree_new_top in T. destruct T as (entries & Hc & Hl & ->).
    injection Hc as ->. now exists entries.
  - left. now exists e.
Qed.

Lemma restore_content_root (temp : string) (s : fs) :
  backup_root (state_after (restore_content temp) s) = backup_root s /\
  config_store (state_after (restore_content temp) s) = config_store s.
Proof.
  unfold restore_content, state_after.
  destruct (backup_root s) as [d|] eqn:E; [|now split].
  destruct (lookup_path _ d) as [staged|]; [|now split].
  destruct (content_root s) as [[f|c]|]; destruct staged;
    cbn [snd with_content backup_root config_store]; now split.
Qed.

Lemma restore_configs_root (cfg : config) (temp : string) (s : fs) :
  backup_root (state_after (restore_configs cfg temp) s) = backup_root s /\
  content_root (state_after (restore_configs cfg temp) s) = content_root s.
Proof.
  unfold restore_configs, state_after at 1 2.
  destruct (backup_root s) as [d|] eqn:E; [|now split].
  destruct (exists_path _ d); [|now split].
  rewrite <- E.
  apply (preserves_for_each
           (fun s' => backup_root s' = backup_root s /\
                      content_root s' = content_root s)
           (config_files cfg) (restore_config_file d temp)); [|now split].
  intros c s0 [H1 H2]. unfold state_after, restore_config_file.
  destruct (lookup_path _ d) as [[f|sub]|]; now split.
Qed.

End RestoreSteps.

(** ** Claims C6, C7 and C4: restore *)

Section RestoreClaims.




Lemma remove_staging_done (temp : string) (s : fs) (d : listing) (sub : listing) :
  backup_root s = Some d -> lookup temp d = Some (Dir sub) ->
  remove_staging temp s = (Ok tt, with_backups (remove temp d) s).
Proof.
  intros Hd Hl. unfold remove_staging, exists_path, on_backups, shutil_rmtree.
  cbn [lookup_path]. now rewrite Hd, Hl.
Qed.

Lemma on_backups_Ok_inv (op : listing -> Result listing) (s s1 : fs) (u : unit) :
  on_backups op s = (Ok u, s1) ->
  exists d d1, backup_root s = Some d /\ op d = Ok d1 /\ s1 = with_backups d1 s.
Proof.
  unfold on_backups. destruct (backup_root s) as [d|]; [|discriminate].
  destruct (op d) as [d1|e] eqn:O; [|discriminate].
  intros [= _ <-]. now exists d, d1.
Qed.

Lemma staging_created (temp : string) (s s1 : fs) :
  on_backups (makedirs [temp] true) s = (Ok tt, s1) -> has_staging temp s1.
Proof.
  intros H. apply on_backups_Ok_inv in H. destruct H as (d & d1 & Hd & Hm & ->).
  cbn [makedirs] in Hm.
  destruct (lookup temp d) as [[f|sub]|] eqn:E; try discriminate;
    injection Hm as <-.
  - exists d, sub. now split.
  - exists (set_entry temp (Dir []) d), []. split; [reflexivity|].
    apply lookup_set_entry_eq.
Qed.


End RestoreClaims.

(** C6 (as amended). For every [backup_name] absent from the catalog,
    [restore_backup] raises and changes nothing: the backup root (no staging
    directory, no snapshot), the content tree and the configuration files
    are as before. The error is the not-found [ValueError] whenever the
    catalog can be listed; when listing itself raises (for instance on a
    readable metadata record without a timestamp), no lookup takes place
    and that error is passed on instead. *)
Theorem restore_missing_changes_nothing (cfg : config) (env : restore_env)
    (backup_name : string) (s : fs) :
  ~ In backup_name (map bi_name (catalog s)) ->
  state_after (restore_backup cfg env backup_name) s = s /\
  (forall l, list_backups s = Ok l ->
     outcome (restore_backup cfg env backup_name) s = Raise (ValueError backup_name)) /\
  (forall e, list_backups s = Raise e ->
     outcome (restore_backup cfg env backup_name) s = Raise e).
Proof.
  intros Habsent. unfold catalog in Habsent.
  unfold state_after, outcome, restore_backup.
  destruct (list_backups s) as [l|e] eqn:Hlist.
  - destruct (find (fun b => bi_name b =? backup_name) l) as [b|] eqn:F.
    + exfalso. apply find_some in F. destruct F as [Hin Heq].
      apply String.eqb_eq in Heq. apply Habsent. rewrite <- Heq. now apply in_map.
    + cbn [fst snd]. repeat split; intros; congruence.
  - cbn [fst snd]. repeat split; intros; congruence.
Qed.

Lemma restore_missing_changes_nothing_witness :
  state_after (restore_backup Scenario.cfg Scenario.renv "missing-id")
              Scenario.edited = Scenario.edited /\
  outcome (restore_backup Scenario.cfg Scenario.renv "missing-id")
          Scenario.edited = Raise (ValueError "missing-id").
Proof.
  assert (H : ~ In "missing-id" (map bi_name (catalog Scenario.edited))).
  { vm_compute. intuition discriminate. }
  destruct (restore_missing_changes_nothing Scenario.cfg Scenario.renv
              "missing-id" Scenario.edited H) as (H1 & H2 & _).
  split; [exact H1|].
  exact (H2 (catalog Scenario.edited) eq_refl).
Defined.

(** The backup root holds an imported archive whose metadata record has no
    timestamp. No readable entry is named [missing-id], and restoring that
    name raises the [KeyError] of the listing's sort key, not the not-found
    [ValueError]; nothing is changed. *)
Lemma restore_missing_raises_keyerror :
  map bi_name (scan Scenario.untimed_root) =
    ["backup_20240102_030405"; "backup_20240102_030406";
     "backup_20240102_030407"; "old"] /\
  ~ In "missing-id" (map bi_name (scan Scenario.untimed_root)) /\
  list_backups Scenario.untimed = Raise (KeyError "timestamp") /\
  restore_backup Scenario.cfg Scenario.renv "missing-id" Scenario.untimed =
    (Raise (KeyError "timestamp"), Scenario.untimed) /\
  KeyError "timestamp" <> ValueError "missing-id".
Proof.
  split; [reflexivity|].
  split; [vm_compute; intuition discriminate|].
  split; [reflexivity|]. split; [reflexivity | discriminate].
Qed.



Section Snapshot.

Lemma zfill_last (w : nat) (n : N) :
  zfill (S w) n = zfill w (n / 10) +++ String (digit (n mod 10)) "".
Proof. reflexivity. Qed.

Lemma digit_not_p (n : N) : digit (n mod 10) <> "p"%char.
Proof.
  assert (Hlt : (n mod 10 < 10)%N) by (apply N.mod_upper_bound; discriminate).
  generalize dependent (n mod 10)%N. intros k Hk H.
  apply (f_equal N_of_ascii) in H. unfold digit in H.
  rewrite N_ascii_embedding in H by lia.
  change (N_of_ascii "p") with 112%N in H. lia.
Qed.

(** The name of the pre-restore copy ends in a digit. *)
Lemma snapshot_name_not_zip (env : restore_env) :
  Str.endswith (snapshot_name env) ".zip" = false.
Proof.
  destruct (Str.endswith (snapshot_name env) ".zip") eqn:E; [|reflexivity].
  exfalso. apply endswith_iff in E. destruct E as [pre E].
  unfold snapshot_name, get_backup_filename, strftime_Ymd_HMS in E.
  rewrite (zfill_last 1 (second (now_snapshot env))) in E.
  change ".zip" with (".zi" +++ "p") in E.
  rewrite <- !append_assoc in E.
  apply append_suffix_inj in E; [|reflexivity].
  destruct E as [_ E]. injection E as E. now apply digit_not_p in E.
Qed.

Lemma try_finally_Ok_inv {A} (body : M A) (final : M unit) (s s' : fs) (a : A) :
  try_finally body final s = (Ok a, s') ->
  exists s2 u, body s = (Ok a, s2) /\ final s2 = (Ok u, s').
Proof.
  unfold try_finally. destruct (body s) as [r s2].
  destruct (final s2) as [[u|e] s3] eqn:F; [|discriminate].
  intros [= -> <-]. now exists s2, u.
Qed.

Lemma run_state {A} (m : M A) (s s' : fs) (r : Result A) :
  m s = (r, s') -> s' = state_after m s.
Proof. intros H. unfold state_after. now rewrite H. Qed.

End Snapshot.

(** C4 (as amended). For every confirmed restore that completes while
    current content exists, the pre-restore snapshot is a plain copy of the
    content tree, stored in the backup root as the directory
    [pre_restore_<identifier>] without a metadata record of its own; unless
    the content tree itself holds a readable [metadata.json] at its top, no
    element of the listing is read from that snapshot. *)
Theorem snapshot_is_plain_copy (cfg : config) (env : restore_env)
    (backup_name : string) (s s' : fs) (c : node) :
  root_ok s = true ->
  content_root s = Some c ->
  restore_backup cfg env backup_name s = (Ok true, s') ->
  exists entries d',
    c = Dir entries /\
    backup_root s' = Some d' /\
    lookup (snapshot_name env) d' = Some (Dir entries) /\
    (read_metadata (lookup "metadata.json" entries) = None ->
     forall b, In b (catalog s') -> bi_path b <> snapshot_name env).
Proof.
  intros Hok Hc H. unfold restore_backup in H.
  destruct (list_backups s) as [l|] eqn:Hlist; [|discriminate].
  destruct (find _ l) as [info|]; [|discriminate].
  destruct (negb _); [discriminate|].
  set (temp := temp_dir_name env) in *.
  apply bind_Ok_inv in H. destruct H as (u & s1 & Hmk & H).
  apply try_finally_Ok_inv in H. destruct H as (s2 & u2 & Hsteps & Hfinal).
  (* the staging directory is made *)
  assert (Hst1 : has_staging temp s1) by (destruct u; now apply staging_created with (s := s)).
  apply on_backups_Ok_inv in Hmk. destruct Hmk as (d & d1 & Hd & Hm & ->).
  assert (Hu : unique_names d) by now apply (root_ok_unique s).
  assert (Hu1 : unique_names d1) by (apply makedirs_touches in Hm; now apply Hm).
  (* steps 3 to 5 *)
  unfold restore_steps in Hsteps.
  apply bind_Ok_inv in Hsteps. destruct Hsteps as (? & sa & Hstage & Hsteps).
  apply bind_Ok_inv in Hsteps. destruct Hsteps as (? & sb & Hsnap & Hsteps).
  apply bind_Ok_inv in Hsteps. destruct Hsteps as (? & sc & Hcont & Hsteps).
  apply bind_Ok_inv in Hsteps. destruct Hsteps as (? & sd & Hconf & Hret).
  injection Hret as <-.
  assert (Ha := stage_step info temp (with_backups d1 s)).
  rewrite <- (run_state _ _ _ _ Hstage) in Ha.
  destruct Ha as (Ha & Hca & _).
  destruct (Ha d1 eq_refl) as (da & Hda & (Hframe & Hdir & Huniq)).
  cbn [with_backups content_root] in Hca. rewrite Hc in Hca.
  destruct Hst1 as (d1' & sub1 & Hd1' & Hl1). cbn [with_backups backup_root] in Hd1'.
  injection Hd1' as <-.
  destruct (Hdir sub1 Hl1) as [suba Hla].
  destruct (snapshot_cases env sa da Hda)
    as [[Hnone _]|[[e He]|(entries & Hce & Hfresh & Hsb)]];
    [congruence | congruence |].
  rewrite Hsnap in Hsb. injection Hsb as _ Hsb. subst sb.
  assert (Hent : c = Dir entries) by congruence.
  assert (Hne : temp <> snapshot_name env).
  { intros E. rewrite E, Hfresh in Hla. discriminate. }
  set (d2 := set_entry (snapshot_name env) (Dir entries) da) in *.
  assert (Hd2 : backup_root sd = Some d2).
  { destruct (restore_configs_root cfg temp sc) as [R1 _].
    destruct (restore_content_root temp (with_backups d2 sa)) as [R2 _].
    rewrite <- (run_state _ _ _ _ Hconf) in R1.
    rewrite <- (run_state _ _ _ _ Hcont) in R2.
    rewrite R1, R2. reflexivity. }
  assert (Hl2 : lookup temp d2 = Some (Dir suba)).
  { unfold d2. now rewrite lookup_set_entry_ne. }
  rewrite (remove_staging_done temp sd d2 suba Hd2 Hl2) in Hfinal.
  injection Hfinal as _ <-.
  exists entries, (remove temp d2). split; [exact Hent|]. split; [reflexivity|].
  assert (Hsnapshot : lookup (snapshot_name env) (remove temp d2) = Some (Dir entries)).
  { rewrite lookup_remove.
    destruct (String.eqb_spec (snapshot_name env) temp); [congruence|].
    apply lookup_set_entry_eq. }
  split; [exact Hsnapshot|].
  intros Hmeta b Hb Hpath.
  assert (Hu' : unique_names (remove temp d2)).
  { apply unique_names_filter. apply unique_names_set_entry. auto. }
  unfold catalog in Hb.
  destruct (list_backups (with_backups (remove temp d2) sd)) as [l'|] eqn:Hl';
    [|destruct Hb].
  apply (listed_iff (with_backups (remove temp d2) sd) (remove temp d2) l'
           eq_refl Hl') in Hb.
  apply In_scan in Hb. destruct Hb as (nd & Hin & Hscan).
  rewrite Hpath in Hin, Hscan.
  apply (In_lookup _ _ _ Hu') in Hin. rewrite Hsnapshot in Hin.
  injection Hin as <-.
  unfold scan_item in Hscan. rewrite snapshot_name_not_zip, Hmeta in Hscan.
  discriminate.
Qed.

Lemma snapshot_is_plain_copy_witness :
  exists d',
    backup_root Scenario.restored = Some d' /\
    lookup (snapshot_name Scenario.renv) d' =
      Some (Dir [("new.md", File (Raw "draft"))]).
Proof.
  destruct (snapshot_is_plain_copy Scenario.cfg Scenario.renv
              "backup_20240102_030405" Scenario.edited Scenario.restored
              (Dir [("new.md", File (Raw "draft"))]) eq_refl eq_refl eq_refl)
    as (entries & d' & He & Hd & Hl & _).
  injection He as <-. now exists d'.
Defined.

(** After a confirmed restore over existing content, the listing has no
    element for the pre-restore snapshot. *)
Lemma snapshot_absent_from_listing :
  content_root Scenario.edited = Some (Dir [("new.md", File (Raw "draft"))]) /\
  restore_backup Scenario.cfg Scenario.renv "backup_20240102_030405"
    Scenario.edited = (Ok true, Scenario.restored) /\
  lookup (snapshot_name Scenario.renv)
    (match backup_root Scenario.restored with Some d => d | None => [] end)
    = Some (Dir [("new.md", File (Raw "draft"))]) /\
  ~ (exists b, In b (catalog Scenario.restored) /\
               (bi_name b = snapshot_name Scenario.renv \/
                bi_path b = snapshot_name Scenario.renv)).
Proof.
  split; [reflexivity|]. split; [reflexivity|]. split; [reflexivity|].
  intros (b & Hb & Hn).
  let l := eval vm_compute in (catalog Scenario.restored) in
  change (catalog Scenario.restored) with l in Hb.
  cbn [In] in Hb.
  repeat (destruct Hb as [<-|Hb]; [destruct Hn as [Hn|Hn]; discriminate Hn|]).
  exact Hb.
Qed.

(** ** Create: what the archive writer counts *)

Section Walk.

Variable cfg : config.

Lemma node_induction (P : node -> Prop) :
  (forall f, P (File f)) ->
  (forall entries, Forall (fun e => P (snd e)) entries -> P (Dir entries)) ->
  forall x, P x.
Proof.
  intros Hf Hd. fix IH 1. intros [f|entries].
  - apply Hf.
  - apply Hd. induction entries as [|e entries IHe]; constructor.
    + apply IH.
    + exact IHe.
Qed.

Lemma should_exclude_append (p q : string) :
  should_exclude cfg p = true -> should_exclude cfg (p +++ q) = true.
Proof.
  unfold should_exclude. rewrite !should_exclude_loop_iff.
  intros (t & Ht & Ho). exists t. split; [assumption|].
  apply contains_iff. apply contains_append_r. now apply contains_iff.
Qed.

(** Every path below a directory extends the directory's path. *)
Lemma all_files_below (top : node) :
  forall root rel t, In t (all_files root rel top) ->
                     exists rest, fst t = root +++ rest.
Proof.
  induction top as [f|entries IH] using node_induction; intros root rel t Ht.
  - destruct Ht.
  - cbn [all_files] in Ht. apply in_app_or in Ht. destruct Ht as [Ht|Ht].
    + apply in_flat_map in Ht. destruct Ht as ([n x] & _ & Ht). cbn [fst snd] in Ht.
      destruct x; [|destruct Ht]. destruct Ht as [<-|[]]. cbn [fst].
      now exists ("/" +++ n).
    + apply in_flat_map in Ht. destruct Ht as ([n x] & Hin & Ht). cbn [fst snd] in Ht.
      rewrite Forall_forall in IH. specialize (IH (n, x) Hin). cbn [snd] in IH.
      destruct x as [f|sub]; [destruct Ht|].
      destruct (IH _ _ _ Ht) as [rest ->].
      exists ("/" +++ n +++ rest). unfold os_path_join.
      now rewrite !append_assoc.
Qed.

Lemma filter_flat_map {A B} (p : B -> bool) (f : A -> list B) (l : list A) :
  filter p (flat_map f l) = flat_map (fun x => filter p (f x)) l.
Proof.
  induction l as [|x l IH]; simpl; [reflexivity|].
  now rewrite filter_app, IH.
Qed.

Lemma map_flat_map {A B C} (g : B -> C) (f : A -> list B) (l : list A) :
  map g (flat_map f l) = flat_map (fun x => map g (f x)) l.
Proof.
  induction l as [|x l IH]; simpl; [reflexivity|].
  now rewrite map_app, IH.
Qed.

Lemma flat_map_ext_in {A B} (f g : A -> list B) (l : list A) :
  (forall x, In x l -> f x = g x) -> flat_map f l = flat_map g l.
Proof.
  induction l as [|x l IH]; intros H; simpl; [reflexivity|].
  rewrite (H x) by now left. f_equal. apply IH. intros y Hy. apply H. now right.
Qed.

Lemma filter_all_excluded (root : string) (rel : path) (top : node) :
  should_exclude cfg root = true ->
  filter (fun t => negb (should_exclude cfg (fst t))) (all_files root rel top) = [].
Proof.
  intros Hex.
  assert (G : forall l : list (string * (path * file)),
            (forall t, In t l -> should_exclude cfg (fst t) = true) ->
            filter (fun t => negb (should_exclude cfg (fst t))) l = []).
  { induction l as [|t l IH]; intros H; [reflexivity|]. cbn [filter].
    rewrite (H t) by now left. cbn [negb]. apply IH. intros; apply H; now right. }
  apply G. intros t Ht. destruct (all_files_below _ _ _ _ Ht) as [rest ->].
  now apply should_exclude_append.
Qed.

(** The walk with pruning yields exactly the files whose path is not
    excluded: pruning a directory loses no file that would be kept. *)
Lemma walk_spec (top : node) :
  forall root rel,
    walk cfg root rel top =
    map snd (filter (fun t => negb (should_exclude cfg (fst t)))
                    (all_files root rel top)).
Proof.
  induction top as [f|entries IH] using node_induction; intros root rel.
  - reflexivity.
  - cbn [walk all_files].
    rewrite filter_app, map_app, !filter_flat_map, !map_flat_map. f_equal.
    + apply flat_map_ext_in. intros [n x] _. cbn [fst snd].
      destruct x as [f|sub]; [|reflexivity]. cbn [filter fst].
      now destruct (should_exclude cfg (os_path_join root n)).
    + apply flat_map_ext_in. intros [n x] Hin. cbn [fst snd].
      rewrite Forall_forall in IH. specialize (IH (n, x) Hin). cbn [snd] in IH.
      destruct x as [f|sub]; [reflexivity|].
      destruct (should_exclude cfg (os_path_join root n)) eqn:E.
      * now rewrite filter_all_excluded.
      * apply IH.
Qed.




End Walk.



(** ** Claims C1 and C5 on concrete projects *)

Lemma write_file_lookup (p : path) (f : file) :
  forall d d', write_file p f d = Ok d' -> lookup_path p d' = Some (File f).
Proof.
  induction p as [|n rest IH]; intros d d' H; [discriminate|].
  destruct rest as [|r rest].
  - cbn [write_file] in H.
    assert (E : d' = set_entry n (File f) d).
    { destruct (lookup n d) as [[g|sub]|]; congruence. }
    subst d'. cbn [lookup_path]. now rewrite lookup_set_entry_eq.
  - rewrite write_file_deep in H.
    destruct (lookup n d) as [[g|sub]|]; try discriminate.
    destruct (write_file (r :: rest) f sub) as [sub'|] eqn:W; [|discriminate].
    injection H as <-.
    change (lookup_path (n :: r :: rest) (set_entry n (Dir sub') d))
      with (match lookup n (set_entry n (Dir sub') d) with
            | Some (Dir sub0) => lookup_path (r :: rest) sub0
            | _ => None
            end).
    rewrite lookup_set_entry_eq. now apply (IH sub sub').
Qed.


(** X4. In directory form, whatever the project, the metadata record that a
    successful [create_backup] writes before trimming has both counters at
    zero. *)
Lemma directory_backup_metadata (cfg : config) (env : create_env)
    (description : string) (s s' : fs) (id : string) :
  compress cfg = false ->
  create_backup cfg env description s = (Ok id, s') ->
  exists (written : fs) (d : listing) (doc : metadata),
    id = get_backup_filename (now_name env) /\
    s' = cleanup_old_backups cfg written /\
    backup_root written = Some d /\
    lookup_path [id; "metadata.json"] d = Some (File (Json (json_len env) doc)) /\
    md_file_count doc = 0%N /\ md_content_size doc = 0%N.
Proof.
  intros Hc H. unfold create_backup in H. rewrite Hc in H.
  apply bind_Ok_inv in H. destruct H as (? & s0 & _ & H).
  apply bind_Ok_inv in H. destruct H as (? & s4 & Hbody & H).
  apply bind_Ok_inv in H. destruct H as (? & s5 & Hclean & Hret).
  injection Hret as <- <-. injection Hclean as _ <-.
  apply bind_Ok_inv in Hbody. destruct Hbody as (? & s1 & _ & Hbody).
  apply bind_Ok_inv in Hbody. destruct Hbody as (? & s2 & _ & Hbody).
  apply bind_Ok_inv in Hbody. destruct Hbody as (? & s3 & _ & Hwrite).
  apply on_backups_Ok_inv in Hwrite. destruct Hwrite as (d & d1 & _ & Hw & ->).
  apply write_file_lookup in Hw.
  eexists _, d1, _.
  split; [reflexivity|]. split; [reflexivity|]. split; [reflexivity|].
  split; [exact Hw|]. split; reflexivity.
Qed.

(** C1 (directory form, evaluated). A project with two files outside the
    excluded directories (8 bytes) and one configuration file (9 bytes) is
    backed up with [compress] off: the call succeeds and the catalog holds
    the new record, whose [file_count] and [content_size] are both 0. In
    compressed form the same project is recorded with 3 files and 17
    bytes. *)
Theorem directory_backup_counts_nothing :
  compress Scenario.cfg_dir = false /\
  List.length (included_files Scenario.cfg_dir Scenario.fresh) = 2%nat /\
  List.length (existing_configs Scenario.cfg_dir Scenario.fresh) = 1%nat /\
  total_size (map (fun t => snd (snd t))
                  (included_files Scenario.cfg_dir Scenario.fresh)) = 8%N /\
  total_size (map snd (existing_configs Scenario.cfg_dir Scenario.fresh)) = 9%N /\
  create_backup Scenario.cfg_dir (Scenario.env_at (Scenario.at_second 5 0) 1000000)
    "a" Scenario.fresh = (Ok "backup_20240102_030405", Scenario.dir_archive) /\
  map counts_of (catalog Scenario.dir_archive) =
    [("backup_20240102_030405", directory, 0%N, 0%N)] /\
  map counts_of
    (catalog (state_after
                (create_backup Scenario.cfg
                   (Scenario.env_at (Scenario.at_second 5 0) 1000000) "a")
                Scenario.fresh)) =
    [("backup_20240102_030405", compressed, 3%N, 17%N)].
Proof. repeat split; vm_compute; reflexivity. Qed.

(** C5 (compressed form, evaluated). The oldest archive was created in
    compressed form when [config.yaml] read "title: v1", and it holds that
    file. The file is then changed to "title: v2". A confirmed restore of
    the archive succeeds and leaves [config.yaml] at "title: v2": the
    archive stores the file under its location relative to the script
    directory, while the restore looks for it in a [config] directory of
    the staged tree. The same edit and restore on a backup in directory
    form brings "title: v1" back. *)
Theorem compressed_restore_leaves_config :
  In (["config.yaml"], Raw "title: v1")
     (zip_members (lookup "backup_20240102_030405.zip" Scenario.three_archives_root)) /\
  lookup_config ["config.yaml"] (config_store Scenario.edited) = Some (Raw "title: v2") /\
  restore_backup Scenario.cfg Scenario.renv "backup_20240102_030405" Scenario.edited
    = (Ok true, Scenario.restored) /\
  lookup_config ["config.yaml"] (config_store Scenario.restored)
    = Some (Raw "title: v2") /\
  outcome (restore_backup Scenario.cfg_dir Scenario.renv "backup_20240102_030405")
          Scenario.dir_edited = Ok true /\
  lookup_config ["config.yaml"]
    (config_store
       (state_after
          (restore_backup Scenario.cfg_dir Scenario.renv "backup_20240102_030405")
          Scenario.dir_edited))
    = Some (Raw "title: v1").
Proof.
  split; [vm_compute; tauto|]. repeat split; vm_compute; reflexivity.
Qed.

(** * Further properties *)

(** ** Identifiers and the archive writer *)

(** X1. For readings with a four-digit year, two identifiers are equal exactly
    when the readings fall in the same clock second: the identifier records
    the creation second and nothing finer. *)
Theorem identifier_equal_iff_same_second (d1 d2 : datetime) :
  datetime_ok d1 = true -> datetime_ok d2 = true ->
  (get_backup_filename d1 = get_backup_filename d2 <-> same_second d1 d2).
Proof.
  intros H1 H2. unfold same_second. split.
  - intros E. apply lex_compare_eq.
    rewrite <- (compare_get_backup_filename d1 d2 H1 H2), E.
    apply string_compare_refl.
  - intros E. unfold get_backup_filename, strftime_Ymd_HMS, to_second in *.
    injection E as -> -> -> -> -> ->. reflexivity.
Qed.

Lemma identifier_equal_iff_same_second_witness :
  get_backup_filename (Scenario.at_second 5 100) =
  get_backup_filename (Scenario.at_second 5 900) <->
  same_second (Scenario.at_second 5 100) (Scenario.at_second 5 900).
Proof.
  apply (identifier_equal_iff_same_second (Scenario.at_second 5 100)
           (Scenario.at_second 5 900)); reflexivity.
Defined.

(** X2. The walk of [create_backup] prunes excluded directories and skips
    excluded files; what it yields is exactly the files of the tree whose
    joined path is not excluded, in the same order. Pruning a directory
    never drops a file that the test on files would have kept. *)
Theorem pruning_loses_no_file (cfg : config) (root : string) (rel : path)
    (top : node) :
  walk cfg root rel top =
  map snd (filter (fun t => negb (should_exclude cfg (fst t)))
                  (all_files root rel top)).
Proof. apply walk_spec. Qed.


Lemma directory_backup_metadata_witness :
  exists (written : fs) (d : listing) (doc : metadata),
    Scenario.dir_archive = cleanup_old_backups Scenario.cfg_dir written /\
    backup_root written = Some d /\
    lookup_path ["backup_20240102_030405"; "metadata.json"] d =
      Some (File (Json 160 doc)) /\
    md_file_count doc = 0%N /\ md_content_size doc = 0%N.
Proof.
  destruct (directory_backup_metadata Scenario.cfg_dir
              (Scenario.env_at (Scenario.at_second 5 0) 1000000) "a"
              Scenario.fresh Scenario.dir_archive "backup_20240102_030405"
              eq_refl eq_refl)
    as (written & d & doc & _ & Hs & Hd & Hl & Hn & Hsz).
  exists written, d, doc. repeat split; assumption.
Defined.

(** ** The listing *)

Section ListingFacts.


End ListingFacts.

(** X5. The listing holds exactly: for each entry of the backup root whose
    name ends in [.zip] and whose sidecar is a readable metadata file, a
    compressed element named by the entry without its extension; and for
    each other entry that is a directory holding a readable
    [metadata.json], a directory element named by the entry. Entries with
    missing or unreadable metadata give nothing, and an entry named [*.zip]
    is never read as an archive in directory form. *)
Theorem listing_sound_and_complete (s : fs) (d : listing) (l : list backup_info) :
  backup_root s = Some d -> list_backups s = Ok l ->
  forall b,
    In b l <->
    (bi_type b = compressed /\
     bi_path b = bi_name b +++ ".zip" /\
     (exists x, In (bi_path b, x) d) /\
     read_metadata (lookup (sidecar_of (bi_name b)) d) = Some (bi_metadata b)) \/
    (bi_type b = directory /\
     bi_name b = bi_path b /\
     Str.endswith (bi_path b) ".zip" = false /\
     exists sub, In (bi_path b, Dir sub) d /\
       read_metadata (lookup "metadata.json" sub) = Some (bi_metadata b)).
Proof.
  intros Hroot Hlist b. rewrite (listed_iff s d l Hroot Hlist), In_scan. split.
  - intros (x & Hin & Hs). destruct (bi_type b) eqn:T; [left|right].
    + destruct (scan_item_compressed _ _ _ _ Hs T) as (_ & Hp & len & Hside).
      repeat split; try assumption; [now exists x|]. now rewrite Hside.
    + destruct (scan_item_directory _ _ _ _ Hs T)
        as (_ & Hn & Hz & sub & len & -> & Hm).
      repeat split; try assumption. exists sub. split; [assumption|].
      now rewrite Hm.
  - destruct b as [name type pth doc]. cbn [bi_name bi_type bi_path bi_metadata].
    intros [(-> & -> & (x & Hin) & Hm)|(-> & -> & Hz & sub & Hin & Hm)].
    + exists x. split; [assumption|]. unfold scan_item.
      assert (Hz : Str.endswith (name +++ ".zip") ".zip" = true)
        by (apply endswith_iff; now exists name).
      assert (Hd := drop_last_append name ".zip"). cbn [String.length] in Hd.
      now rewrite Hz, Hd, Hm.
    + exists (Dir sub). split; [assumption|]. unfold scan_item.
      now rewrite Hz, Hm.
Qed.

Lemma listing_sound_and_complete_witness :
  In (Scenario.damaged_info) (catalog Scenario.damaged) <->
  (bi_type Scenario.damaged_info = compressed /\
   bi_path Scenario.damaged_info = bi_name Scenario.damaged_info +++ ".zip" /\
   (exists x, In (bi_path Scenario.damaged_info, x)
                 (match backup_root Scenario.damaged with Some d => d | None => [] end)) /\
   read_metadata
     (lookup (sidecar_of (bi_name Scenario.damaged_info))
        (match backup_root Scenario.damaged with Some d => d | None => [] end))
     = Some (bi_metadata Scenario.damaged_info)) \/
  (bi_type Scenario.damaged_info = directory /\
   bi_name Scenario.damaged_info = bi_path Scenario.damaged_info /\
   Str.endswith (bi_path Scenario.damaged_info) ".zip" = false /\
   exists sub,
     In (bi_path Scenario.damaged_info, Dir sub)
        (match backup_root Scenario.damaged with Some d => d | None => [] end) /\
     read_metadata (lookup "metadata.json" sub)
       = Some (bi_metadata Scenario.damaged_info)).
Proof.
  exact (listing_sound_and_complete Scenario.damaged
           (match backup_root Scenario.damaged with Some d => d | None => [] end)
           (catalog Scenario.damaged) eq_refl eq_refl Scenario.damaged_info).
Defined.



(** ** A sidecar removed by hand, and trimming in general *)

Section SidecarRemoved.

Variable d : listing.
Variable b0 : backup_info.
Hypothesis Hu : unique_names d.
Hypothesis Hb0 : In b0 (scan d).
Hypothesis T0 : bi_type b0 = compressed.





End SidecarRemoved.





(** ** Create: what it touches and when it fails *)

Section CreateFacts.

Lemma on_backups_sources (c : option node) (cs : list (path * file))
    (op : listing -> Result listing) :
  preserves (sources_are c cs) (on_backups op).
Proof.
  intros s [H1 H2]. unfold state_after, on_backups.
  destruct (backup_root s) as [d|]; [|now split].
  destruct (op d); now split.
Qed.

Lemma setup_sources (c : option node) (cs : list (path * file)) :
  preserves (sources_are c cs) setup_backup_dir.
Proof.
  intros s [H1 H2]. unfold state_after, setup_backup_dir.
  destruct (backup_root s); now split.
Qed.

Lemma setup_result (s : fs) :
  setup_backup_dir s =
  (Ok tt, with_backups (match backup_root s with Some d => d | None => [] end) s).
Proof.
  unfold setup_backup_dir. destruct s as [[d|] c cs]; reflexivity.
Qed.

End CreateFacts.

(** X10. [create_backup] never changes the content tree or the configuration
    files, whether it returns or raises: all it writes is in the backup
    root. *)
Theorem create_leaves_sources (cfg : config) (env : create_env)
    (description : string) (s : fs) :
  content_root (state_after (create_backup cfg env description) s) = content_root s /\
  config_store (state_after (create_backup cfg env description) s) = config_store s.
Proof.
  assert (G : preserves (sources_are (content_root s) (config_store s))
                        (create_backup cfg env description)).
  { unfold create_backup.
    apply preserves_bind; [apply setup_sources | intros _].
    apply preserves_bind; [|intros _; apply preserves_bind;
                             [|intros _; apply preserves_ret]].
    - destruct (compress cfg).
      + intros s0 Hs0. unfold state_after. cbv beta zeta.
        match goal with
        | |- _ (snd (?m s0)) =>
            change (sources_are (content_root s) (config_store s) (state_after m s0))
        end.
        revert Hs0. apply preserves_bind;
          [apply on_backups_sources | intros _; apply on_backups_sources].
      + apply preserves_bind; [|intros _; apply preserves_bind;
                                 [|intros _; apply preserves_bind]].
        * intros s0 Hs0. unfold state_after. cbv beta.
          match goal with
          | |- _ (snd (?m s0)) =>
              change (sources_are (content_root s) (config_store s) (state_after m s0))
          end.
          revert Hs0. apply on_backups_sources.
        * apply on_backups_sources.
        * intros s0 Hs0. unfold state_after. cbv beta.
          match goal with
          | |- _ (snd (?m s0)) =>
              change (sources_are (content_root s) (config_store s) (state_after m s0))
          end.
          revert Hs0. apply preserves_for_each.
          intros member. apply on_backups_sources.
        * intros _. apply on_backups_sources.
    - intros s0 [H1 H2]. unfold state_after. cbn [snd].
      destruct (cleanup_frame cfg s0) as [F1 F2]. split; congruence. }
  apply G. now split.
Qed.

(** X11. In directory form [create_backup] needs the content directory: when it
    is absent or is no directory the call raises
    ([FileNotFoundError] when absent) having done nothing but make the
    backup directory. *)
Theorem directory_backup_needs_content (cfg : config) (env : create_env)
    (description : string) (s : fs) :
  compress cfg = false ->
  (forall entries, content_root s <> Some (Dir entries)) ->
  exists e,
    create_backup cfg env description s =
      (Raise e,
       with_backups (match backup_root s with Some d => d | None => [] end) s) /\
    (content_root s = None -> e = FileNotFoundError).
Proof.
  intros Hc Hnd. unfold create_backup. rewrite Hc.
  unfold bind at 1. rewrite setup_result.
  set (s0 := with_backups _ s).
  unfold bind at 1. unfold bind at 1. unfold on_backups at 1.
  cbn [backup_root s0 with_backups content_root].
  unfold copytree_new.
  destruct (content_root s) as [[f|entries]|] eqn:C.
  - exists NotADirectoryError. split; [reflexivity | discriminate].
  - exfalso. now apply (Hnd entries).
  - exists FileNotFoundError. split; reflexivity.
Qed.

Lemma directory_backup_needs_content_witness :
  exists e,
    create_backup Scenario.cfg_dir (Scenario.env_at (Scenario.at_second 5 0) 1000000)
      "a" (with_content None Scenario.fresh) =
      (Raise e, with_backups [] (with_content None Scenario.fresh)) /\
    (content_root (with_content None Scenario.fresh) = None ->
     e = FileNotFoundError).
Proof.
  apply (directory_backup_needs_content Scenario.cfg_dir
           (Scenario.env_at (Scenario.at_second 5 0) 1000000) "a"
           (with_content None Scenario.fresh) eq_refl).
  intros entries. discriminate.
Defined.

(** X12. In directory form a second [create_backup] under an identifier whose
    archive already holds a [content] directory raises [FileExistsError]
    and changes nothing; the earlier archive is not overwritten. *)
Theorem directory_backup_refuses_existing (cfg : config) (env : create_env)
    (description : string) (s : fs) (d : listing) (entries : listing) :
  compress cfg = false ->
  backup_root s = Some d ->
  content_root s = Some (Dir entries) ->
  exists_path [get_backup_filename (now_name env); "content"] d = true ->
  create_backup cfg env description s = (Raise FileExistsError, s).
Proof.
  intros Hc Hd Hcont Hex. unfold create_backup. rewrite Hc.
  unfold bind at 1. rewrite setup_result, Hd.
  assert (E : with_backups d s = s) by (destruct s; unfold with_backups; cbn in *; subst; reflexivity).
  rewrite E.
  unfold bind at 1. unfold bind at 1. unfold on_backups at 1.
  rewrite Hd, Hcont. unfold copytree_new. now rewrite Hex.
Qed.

Lemma directory_backup_refuses_existing_witness :
  create_backup Scenario.cfg_dir (Scenario.env_at (Scenario.at_second 5 700) 1700000)
    "again" Scenario.dir_archive = (Raise FileExistsError, Scenario.dir_archive).
Proof.
  apply (directory_backup_refuses_existing Scenario.cfg_dir
           (Scenario.env_at (Scenario.at_second 5 700) 1700000) "again"
           Scenario.dir_archive
           (match backup_root Scenario.dir_archive with Some d => d | None => [] end)
           (match content_root Scenario.dir_archive with
            | Some (Dir e) => e | _ => [] end));
    reflexivity.
Defined.

(** ** Create followed by listing *)

Section SortHead.



End SortHead.

Section NewArchive.

Variable d : listing.
Variable backup_name : string.
Variables zl jl : N.
Variable members : list (path * file).
Variable doc : metadata.
Hypothesis Hu : unique_names d.







End NewArchive.




Section CreateThenList.

Variable cfg : config.
Variable env : create_env.
Variable description : string.
Variable s : fs.
Variable l : list backup_info.
Hypothesis Hc : compress cfg = true.
Hypothesis Hok : root_ok s = true.
Hypothesis Hzip :
  forall sub,
    lookup (get_backup_filename (now_name env) +++ ".zip")
           (match backup_root s with Some d => d | None => [] end) <> Some (Dir sub).
Hypothesis Hside :
  forall sub,
    lookup (sidecar_of (get_backup_filename (now_name env)))
           (match backup_root s with Some d => d | None => [] end) <> Some (Dir sub).
Hypothesis Hlist : list_backups s = Ok l.


End CreateThenList.





(** ** Restore: confirmation, what it touches, and the saved content *)

Section RestoreFacts.

Lemma lower_ascii_y (c : ascii) :
  Str.lower_ascii c = "y"%char -> c = "y"%char \/ c = "Y"%char.
Proof.
  destruct c as [[] [] [] [] [] [] [] []]; vm_compute; intros H;
    first [discriminate | now left | now right].
Qed.

Lemma lower_y_inv (answer : string) :
  Str.lower answer = "y" -> answer = "y" \/ answer = "Y".
Proof.
  destruct answer as [|c rest]; [discriminate|]. cbn [Str.lower].
  intros H. injection H as Hc Hrest.
  destruct rest; [|discriminate].
  destruct (lower_ascii_y c Hc) as [->| ->]; [now left | now right].
Qed.

Lemma temp_not_snapshot (env : restore_env) :
  temp_dir_name env <> snapshot_name env.
Proof. unfold temp_dir_name, snapshot_name. cbn. discriminate. Qed.

Lemma state_after_try_finally {A} (body : M A) (final : M unit) (s : fs) :
  state_after (try_finally body final) s = state_after final (state_after body s).
Proof.
  unfold state_after, try_finally. destruct (body s) as [r s1]. cbn [snd].
  now destruct (final s1) as [[u|e] s2].
Qed.

Lemma preserves_try_finally {A} (P : fs -> Prop) (body : M A) (final : M unit) :
  preserves P body -> preserves P final -> preserves P (try_finally body final).
Proof.
  intros Hb Hf s Hs. rewrite state_after_try_finally. now apply Hf, Hb.
Qed.

(** A confirmed run never returns [False]. *)
Lemma confirmed_never_false (cfg : config) (env : restore_env)
    (info : backup_info) (s : fs) :
  outcome (on_backups (makedirs [temp_dir_name env] true) ;;;
           try_finally (restore_steps cfg env info (temp_dir_name env))
                       (remove_staging (temp_dir_name env))) s <> Ok false.
Proof.
  unfold outcome.
  destruct ((_ ;;; _) s) as [r s'] eqn:H. cbn [fst]. intros ->.
  apply bind_Ok_inv in H. destruct H as (? & s1 & _ & H).
  apply try_finally_Ok_inv in H. destruct H as (s2 & ? & H & _).
  unfold restore_steps in H.
  apply bind_Ok_inv in H. destruct H as (? & ? & _ & H).
  apply bind_Ok_inv in H. destruct H as (? & ? & _ & H).
  apply bind_Ok_inv in H. destruct H as (? & ? & _ & H).
  apply bind_Ok_inv in H. destruct H as (? & ? & _ & H).
  discriminate.
Qed.

Section Frame.

Variable env : restore_env.
Variable d : listing.

Lemma outside_on_backups (op : listing -> Result listing) :
  (forall d0 d1, op d0 = Ok d1 ->
     forall n, n <> temp_dir_name env -> lookup n d1 = lookup n d0) ->
  preserves (same_outside [temp_dir_name env; snapshot_name env] d) (on_backups op).
Proof.
  intros Hop s (d0 & Hd0 & Hl). unfold state_after, on_backups. rewrite Hd0.
  destruct (op d0) as [d1|e] eqn:O; cbn [snd]; [|now exists d0].
  exists d1. split; [reflexivity|]. intros n Hn.
  rewrite (Hop d0 d1 O); [now apply Hl|].
  intros E. apply Hn. now left.
Qed.

Lemma outside_root_step (s0 s1 : fs) :
  root_step (temp_dir_name env) s0 s1 ->
  same_outside [temp_dir_name env; snapshot_name env] d s0 ->
  same_outside [temp_dir_name env; snapshot_name env] d s1.
Proof.
  intros (A & _ & _) (d0 & Hd0 & Hl).
  destruct (A d0 Hd0) as (d1 & Hd1 & (F & _ & _)).
  exists d1. split; [assumption|]. intros n Hn.
  rewrite F; [now apply Hl|]. intros E. apply Hn. now left.
Qed.

Lemma outside_same_root (s0 s1 : fs) :
  backup_root s1 = backup_root s0 ->
  same_outside [temp_dir_name env; snapshot_name env] d s0 ->
  same_outside [temp_dir_name env; snapshot_name env] d s1.
Proof.
  intros E (d0 & Hd0 & Hl). exists d0. split; [congruence | assumption].
Qed.

Lemma outside_snapshot :
  preserves (same_outside [temp_dir_name env; snapshot_name env] d)
            (snapshot_current env).
Proof.
  intros s (d0 & Hd0 & Hl). unfold state_after.
  destruct (snapshot_cases env s d0 Hd0)
    as [[_ ->]|[[e ->]|(entries & _ & _ & ->)]]; cbn [snd];
    try (now exists d0).
  exists (set_entry (snapshot_name env) (Dir entries) d0).
  split; [reflexivity|]. intros n Hn.
  rewrite lookup_set_entry_ne; [now apply Hl|].
  intros E. apply Hn. right. now left.
Qed.

Lemma outside_remove_staging :
  preserves (same_outside [temp_dir_name env; snapshot_name env] d)
            (remove_staging (temp_dir_name env)).
Proof.
  intros s Hs. unfold state_after, remove_staging.
  destruct (backup_root s) as [d0|] eqn:Hd0; [|exact Hs].
  destruct (exists_path [temp_dir_name env] d0); [|exact Hs].
  apply (outside_on_backups (shutil_rmtree (temp_dir_name env))); [|exact Hs].
  intros d1 d2 H n Hn. unfold shutil_rmtree in H.
  destruct (lookup (temp_dir_name env) d1) as [[f|sub]|]; try discriminate.
  injection H as <-. rewrite lookup_remove.
  now destruct (String.eqb_spec n (temp_dir_name env)).
Qed.

Lemma outside_steps (cfg : config) (info : backup_info) :
  preserves (same_outside [temp_dir_name env; snapshot_name env] d)
            (restore_steps cfg env info (temp_dir_name env)).
Proof.
  unfold restore_steps.
  apply preserves_bind; [|intros _; apply preserves_bind;
    [|intros _; apply preserves_bind;
      [|intros _; apply preserves_bind; [|intros _; apply preserves_ret]]]].
  - intros s. apply outside_root_step, stage_step.
  - apply outside_snapshot.
  - intros s. apply outside_same_root, restore_content_root.
  - intros s. apply outside_same_root, restore_configs_root.
Qed.

End Frame.

(** The whole call changes the backup root at most at the staging
    directory and at the pre-restore copy. *)
Lemma restore_outside (cfg : config) (env : restore_env) (backup_name : string)
    (s : fs) (d : listing) :
  backup_root s = Some d ->
  same_outside [temp_dir_name env; snapshot_name env] d
    (state_after (restore_backup cfg env backup_name) s).
Proof.
  intros Hd.
  assert (H0 : same_outside [temp_dir_name env; snapshot_name env] d s)
    by (exists d; now split).
  unfold state_after, restore_backup.
  destruct (list_backups s) as [l|e]; [|exact H0].
  destruct (find _ l) as [info|]; [|exact H0].
  destruct (negb _); [exact H0|].
  match goal with
  | |- _ (snd (?m s)) =>
      change (same_outside [temp_dir_name env; snapshot_name env] d
                (state_after m s))
  end.
  revert H0. apply preserves_bind; [|intros _; apply preserves_try_finally].
  - apply outside_on_backups. intros d0 d1 H n Hn.
    apply makedirs_touches in H. destruct H as (F & _ & _). now apply F.
  - apply outside_steps.
  - apply outside_remove_staging.
Qed.

Section Saved.

Variable cfg : config.
Variable env : restore_env.
Variable c : node.

Lemma saved_same_root (s0 s1 : fs) :
  backup_root s1 = backup_root s0 ->
  content_saved c (snapshot_name env) s0 -> content_saved c (snapshot_name env) s1.
Proof.
  intros E (d0 & entries & Hc & Hd0 & Hl). exists d0, entries.
  split; [assumption|]. split; [congruence | assumption].
Qed.

Lemma saved_after_content_and_configs :
  preserves (content_saved c (snapshot_name env))
            (restore_content (temp_dir_name env) ;;;
             restore_configs cfg (temp_dir_name env) ;;; ret true).
Proof.
  apply preserves_bind; [|intros _; apply preserves_bind;
                           [|intros _; apply preserves_ret]].
  - intros s. apply saved_same_root, restore_content_root.
  - intros s. apply saved_same_root, restore_configs_root.
Qed.

Lemma steps_safe (info : backup_info) (s1 : fs) :
  content_root s1 = Some c ->
  let s2 := state_after (restore_steps cfg env info (temp_dir_name env)) s1 in
  content_root s2 = Some c \/ content_saved c (snapshot_name env) s2.
Proof.
  intros Hc. cbv zeta. unfold restore_steps. rewrite state_after_bind.
  destruct (stage_step info (temp_dir_name env) s1) as (_ & Hca & _).
  destruct (outcome (stage info (temp_dir_name env)) s1) as [u|e];
    [|left; congruence].
  set (sa := state_after (stage info (temp_dir_name env)) s1) in *.
  assert (Hsa : content_root sa = Some c) by congruence.
  rewrite state_after_bind.
  destruct (backup_root sa) as [da|] eqn:Hda.
  - destruct (snapshot_cases env sa da Hda)
      as [[Hnone _]|[[e He]|(entries & Hce & _ & Hsb)]].
    + congruence.
    + unfold outcome, state_after. rewrite He. cbn [fst snd]. now left.
    + unfold outcome. rewrite Hsb. cbn [fst].
      right. apply saved_after_content_and_configs.
      unfold state_after. rewrite Hsb. cbn [snd].
      exists (set_entry (snapshot_name env) (Dir entries) da), entries.
      split; [congruence|]. split; [reflexivity|]. apply lookup_set_entry_eq.
  - assert (E : snapshot_current env sa = (Raise FileNotFoundError, sa)).
    { unfold snapshot_current, on_backups. now rewrite Hsa, Hda. }
    unfold outcome, state_after. rewrite E. cbn [fst snd]. now left.
Qed.

Lemma final_safe :
  preserves (fun s' => content_root s' = Some c \/
                       content_saved c (snapshot_name env) s')
            (remove_staging (temp_dir_name env)).
Proof.
  intros s Hs. unfold state_after, remove_staging.
  destruct (backup_root s) as [d0|] eqn:Hd0; [|exact Hs].
  destruct (exists_path [temp_dir_name env] d0); [|exact Hs].
  unfold on_backups, shutil_rmtree. rewrite Hd0.
  destruct (lookup (temp_dir_name env) d0) as [[f|sub]|]; cbn [snd]; try exact Hs.
  destruct Hs as [Hs|(d' & entries & Hc & Hd' & Hl)]; [now left|].
  right. exists (remove (temp_dir_name env) d0), entries.
  split; [assumption|]. split; [reflexivity|].
  rewrite lookup_remove.
  destruct (String.eqb_spec (snapshot_name env) (temp_dir_name env)) as [E|_].
  - symmetry in E. now apply temp_not_snapshot in E.
  - congruence.
Qed.

End Saved.

End RestoreFacts.

(** X15. Only the answers [y] and [Y] confirm a restore of a listed archive: the
    call returns [False] exactly for every other answer, and then nothing
    has changed. *)
Theorem only_y_confirms (cfg : config) (env : restore_env)
    (backup_name : string) (s : fs) (l : list backup_info) (info : backup_info) :
  list_backups s = Ok l ->
  find (fun b => bi_name b =? backup_name) l = Some info ->
  (outcome (restore_backup cfg env backup_name) s = Ok false <->
   confirm env <> "y" /\ confirm env <> "Y") /\
  (confirm env <> "y" -> confirm env <> "Y" ->
   restore_backup cfg env backup_name s = (Ok false, s)).
Proof.
  intros Hlist Hfind.
  assert (Hno : Str.lower (confirm env) <> "y" ->
                restore_backup cfg env backup_name s = (Ok false, s)).
  { intros H. unfold restore_backup. rewrite Hlist, Hfind.
    destruct (String.eqb_spec (Str.lower (confirm env)) "y"); [contradiction|].
    reflexivity. }
  split; [split|].
  - intros H. split; intros E.
    + unfold outcome, restore_backup in H. rewrite Hlist, Hfind, E in H.
      cbn [Str.lower negb] in H. now apply confirmed_never_false in H.
    + unfold outcome, restore_backup in H. rewrite Hlist, Hfind, E in H.
      cbn [Str.lower negb] in H. now apply confirmed_never_false in H.
  - intros [H1 H2]. unfold outcome. rewrite Hno; [reflexivity|].
    intros E. apply lower_y_inv in E. tauto.
  - intros H1 H2. apply Hno. intros E. apply lower_y_inv in E. tauto.
Qed.

Lemma only_y_confirms_witness :
  (outcome (restore_backup Scenario.cfg
              {| confirm := "yes"; time_temp := 1704164700250000;
                 now_snapshot := Scenario.at_second 9 0 |}
              "backup_20240102_030405") Scenario.edited = Ok false <->
   "yes" <> "y" /\ "yes" <> "Y") /\
  ("yes" <> "y" -> "yes" <> "Y" ->
   restore_backup Scenario.cfg
     {| confirm := "yes"; time_temp := 1704164700250000;
        now_snapshot := Scenario.at_second 9 0 |}
     "backup_20240102_030405" Scenario.edited = (Ok false, Scenario.edited)).
Proof.
  apply (only_y_confirms Scenario.cfg
           {| confirm := "yes"; time_temp := 1704164700250000;
              now_snapshot := Scenario.at_second 9 0 |}
           "backup_20240102_030405" Scenario.edited (catalog Scenario.edited)
           (match find (fun b => bi_name b =? "backup_20240102_030405")
                       (catalog Scenario.edited) with
            | Some b => b | None => Scenario.damaged_info end)).
  - reflexivity.
  - reflexivity.
Defined.

(** X16. Whatever its outcome, [restore_backup] leaves every entry of the backup
    root as it was, except the staging directory and the pre-restore copy:
    no archive and no sidecar is changed or removed by a restore. *)
Theorem restore_touches_only_its_own_entries (cfg : config) (env : restore_env)
    (backup_name : string) (s : fs) (d : listing) :
  backup_root s = Some d ->
  exists d',
    backup_root (state_after (restore_backup cfg env backup_name) s) = Some d' /\
    forall n, n <> temp_dir_name env -> n <> snapshot_name env ->
              lookup n d' = lookup n d.
Proof.
  intros Hd.
  destruct (restore_outside cfg env backup_name s d Hd) as (d' & Hd' & Hl).
  exists d'. split; [assumption|].
  intros n H1 H2. apply Hl. intros [E|[E|[]]]; congruence.
Qed.

Lemma restore_touches_only_its_own_entries_witness :
  exists d',
    backup_root (state_after
                   (restore_backup Scenario.cfg Scenario.renv "backup_20240102_030405")
                   Scenario.edited) = Some d' /\
    forall n, n <> temp_dir_name Scenario.renv -> n <> snapshot_name Scenario.renv ->
              lookup n d' = lookup n Scenario.three_archives_root.
Proof.
  apply (restore_touches_only_its_own_entries Scenario.cfg Scenario.renv
           "backup_20240102_030405" Scenario.edited Scenario.three_archives_root).
  reflexivity.
Defined.

(** X17. [restore_backup] never loses the current content: whatever its outcome,
    when content existed before the call, either it is still in place
    afterwards or it is held, entry for entry, by the pre-restore copy in
    the backup root. *)
Theorem restore_saves_content_first (cfg : config) (env : restore_env)
    (backup_name : string) (s : fs) (c : node) :
  content_root s = Some c ->
  content_root (state_after (restore_backup cfg env backup_name) s) = Some c \/
  content_saved c (snapshot_name env)
    (state_after (restore_backup cfg env backup_name) s).
Proof.
  intros Hc. unfold state_after at 1 2, restore_backup.
  destruct (list_backups s) as [l|e]; [|now left].
  destruct (find _ l) as [info|]; [|now left].
  destruct (negb _); [now left|].
  match goal with
  | |- _ (snd (?m s)) = _ \/ _ =>
      change (content_root (state_after m s) = Some c \/
              content_saved c (snapshot_name env) (state_after m s))
  end.
  rewrite state_after_bind.
  assert (Hmk : content_root
                  (state_after (on_backups (makedirs [temp_dir_name env] true)) s) =
                Some c).
  { unfold state_after, on_backups. destruct (backup_root s) as [d|]; [|assumption].
    destruct (makedirs _ _ d); assumption. }
  destruct (outcome _ s); [|now left].
  rewrite state_after_try_finally.
  apply (final_safe env c). now apply steps_safe.
Qed.

Lemma restore_saves_content_first_witness :
  content_root (state_after
                  (restore_backup Scenario.cfg Scenario.renv "backup_20240102_030405")
                  Scenario.edited) =
    Some (Dir [("new.md", File (Raw "draft"))]) \/
  content_saved (Dir [("new.md", File (Raw "draft"))]) (snapshot_name Scenario.renv)
    (state_after (restore_backup Scenario.cfg Scenario.renv "backup_20240102_030405")
       Scenario.edited).
Proof.
  apply (restore_saves_content_first Scenario.cfg Scenario.renv
           "backup_20240102_030405" Scenario.edited
           (Dir [("new.md", File (Raw "draft"))])).
  reflexivity.
Defined.

(** ** Operations two levels below the backup root *)

Section Under.

Lemma lookup_path2 (n c : string) (d : listing) :
  lookup_path [n; c] d =
  match lookup n d with
  | Some (Dir sub) => lookup c sub
  | _ => None
  end.
Proof.
  change (lookup_path [n; c] d)
    with (match lookup n d with
          | Some (Dir sub) => lookup_path [c] sub
          | _ => None
          end).
  destruct (lookup n d) as [[f|sub]|]; try reflexivity.
  cbn [lookup_path]. now destruct (lookup c sub) as [[g|sub']|].
Qed.

Lemma lookup_path_set_entry_ne (n m : string) (rest : path) (x : node) (d : listing) :
  n <> m -> lookup_path (n :: rest) (set_entry m x d) = lookup_path (n :: rest) d.
Proof. intros H. cbn [lookup_path]. now rewrite lookup_set_entry_ne. Qed.

Lemma removelast_head (a : string) (arc : path) :
  removelast (a :: arc) = [] \/ exists r, removelast (a :: arc) = a :: r.
Proof.
  destruct arc as [|b arc]; [now left|]. right.
  now exists (removelast (b :: arc)).
Qed.

Lemma makedirs_under (n a : string) (p : path) (ok : bool) (d d' : listing) :
  makedirs (n :: p) ok d = Ok d' ->
  p = [] \/ (exists r, p = a :: r) ->
  forall c, c <> a -> lookup_path [n; c] d' = lookup_path [n; c] d.
Proof.
  intros H Hp c Hc. rewrite !lookup_path2. destruct Hp as [->|[r ->]].
  - cbn [makedirs] in H.
    destruct (lookup n d) as [[f|sub]|] eqn:E; try discriminate.
    + destruct ok; [|discriminate]. injection H as <-. now rewrite E.
    + injection H as <-. now rewrite lookup_set_entry_eq.
  - rewrite makedirs_deep in H.
    destruct (lookup n d) as [[f|sub]|] eqn:E; try discriminate.
    + destruct (makedirs (a :: r) ok sub) as [sub'|] eqn:M; [|discriminate].
      injection H as <-. rewrite lookup_set_entry_eq.
      apply makedirs_touches in M. destruct M as (F & _ & _). now apply F.
    + destruct (makedirs (a :: r) ok []) as [sub'|] eqn:M; [|discriminate].
      injection H as <-. rewrite lookup_set_entry_eq.
      apply makedirs_touches in M. destruct M as (F & _ & _). now rewrite F.
Qed.

Lemma write_file_under (n a : string) (arc : path) (f : file) (d d' : listing) :
  write_file (n :: a :: arc) f d = Ok d' ->
  forall c, c <> a -> lookup_path [n; c] d' = lookup_path [n; c] d.
Proof.
  intros H c Hc. rewrite !lookup_path2. rewrite write_file_deep in H.
  destruct (lookup n d) as [[g|sub]|] eqn:E; try discriminate.
  destruct (write_file (a :: arc) f sub) as [sub'|] eqn:W; [|discriminate].
  injection H as <-. rewrite lookup_set_entry_eq.
  apply write_file_touches in W. destruct W as (F & _ & _). now apply F.
Qed.

(** Extracting a member that is not below [c] leaves [c] absent from the
    staging directory. *)
Lemma extract_keeps_absent (temp c : string) (member : path * file)
    (d d' : listing) :
  hd_error (sanitize (fst member)) <> Some c ->
  extract_member [temp] member d = Ok d' ->
  lookup_path [temp; c] d = None -> lookup_path [temp; c] d' = None.
Proof.
  unfold extract_member. cbn [app]. intros Hhd H Habs.
  destruct (sanitize (fst member)) as [|a arc] eqn:E.
  - cbn [removelast exists_path lookup_path write_file] in H.
    rewrite lookup_path2.
    destruct (lookup temp d) as [[g|sub]|]; try discriminate;
      injection H as <-; now rewrite lookup_set_entry_eq.
  - assert (Hc : c <> a) by (intros ->; now apply Hhd).
    change (removelast (temp :: a :: arc)) with (temp :: removelast (a :: arc)) in H.
    destruct (exists_path _ d).
    + now rewrite (write_file_under _ _ _ _ _ _ H c Hc).
    + destruct (makedirs _ false d) as [d1|] eqn:M; [|discriminate].
      rewrite (write_file_under _ _ _ _ _ _ H c Hc).
      rewrite (makedirs_under _ a _ _ _ _ M (removelast_head a arc) c Hc).
      exact Habs.
Qed.

Lemma state_after_bind_Ok {A B} (m : M A) (k : A -> M B) (s s1 : fs) (a : A) :
  m s = (Ok a, s1) -> state_after (bind m k) s = state_after (k a) s1.
Proof. intros H. unfold state_after, bind. now rewrite H. Qed.

Lemma preserves_for_each_in {A} (P : fs -> Prop) (xs : list A) (body : A -> M unit) :
  (forall x, In x xs -> preserves P (body x)) -> preserves P (for_each xs body).
Proof.
  induction xs as [|x xs IH]; intros H; cbn [for_each].
  - apply preserves_ret.
  - apply preserves_bind; [apply H; now left|].
    intros _. apply IH. intros y Hy. apply H. now right.
Qed.

End Under.

Section StagedConfig.

Variable cfg : config.
Variable env : restore_env.
Variable cs : list (path * file).

Lemma no_config_same_root (s0 s1 : fs) :
  backup_root s1 = backup_root s0 -> config_store s1 = config_store s0 ->
  no_staged_config (temp_dir_name env) cs s0 ->
  no_staged_config (temp_dir_name env) cs s1.
Proof.
  intros E1 E2 (Hcs & d0 & Hd0 & Hl). split; [congruence|].
  exists d0. split; [congruence | assumption].
Qed.

Lemma no_config_extract (member : path * file) :
  hd_error (sanitize (fst member)) <> Some "config" ->
  preserves (no_staged_config (temp_dir_name env) cs)
            (on_backups (extract_member [temp_dir_name env] member)).
Proof.
  intros Hhd s (Hcs & d0 & Hd0 & Hl). unfold state_after, on_backups.
  rewrite Hd0.
  destruct (extract_member _ member d0) as [d1|e] eqn:X; cbn [snd].
  - split; [assumption|]. exists d1. split; [reflexivity|].
    now apply (extract_keeps_absent _ _ member d0).
  - split; [assumption|]. now exists d0.
Qed.

Lemma no_config_snapshot :
  preserves (no_staged_config (temp_dir_name env) cs) (snapshot_current env).
Proof.
  intros s (Hcs & d0 & Hd0 & Hl). unfold state_after.
  destruct (snapshot_cases env s d0 Hd0)
    as [[_ ->]|[[e ->]|(entries & _ & _ & ->)]]; cbn [snd];
    try (split; [assumption | now exists d0]).
  split; [assumption|].
  exists (set_entry (snapshot_name env) (Dir entries) d0).
  split; [reflexivity|].
  rewrite lookup_path_set_entry_ne; [assumption | apply temp_not_snapshot].
Qed.

Lemma no_config_restore_configs :
  preserves (no_staged_config (temp_dir_name env) cs)
            (restore_configs cfg (temp_dir_name env)).
Proof.
  intros s Hs. destruct Hs as (Hcs & d0 & Hd0 & Hl).
  unfold state_after, restore_configs, exists_path. rewrite Hd0, Hl. cbn [snd].
  split; [assumption | now exists d0].
Qed.

Lemma no_config_stage (info : backup_info) (s : fs) (d0 : listing) :
  bi_type info = compressed ->
  backup_root s = Some d0 ->
  (forall m, In m (zip_members (lookup (bi_path info) d0)) ->
             hd_error (sanitize (fst m)) <> Some "config") ->
  no_staged_config (temp_dir_name env) cs s ->
  no_staged_config (temp_dir_name env) cs
    (state_after (stage info (temp_dir_name env)) s).
Proof.
  intros T Hd0 Hm Hs. unfold state_after, stage. rewrite Hd0, T.
  destruct (lookup (bi_path info) d0) as [[[str|n doc|zl members]|sub]|];
    try exact Hs.
  cbn [zip_members] in Hm.
  apply (preserves_for_each_in (no_staged_config (temp_dir_name env) cs)
           members); [|exact Hs].
  intros m Hin. now apply no_config_extract, Hm.
Qed.

Lemma no_config_rest :
  preserves (no_staged_config (temp_dir_name env) cs)
            (snapshot_current env ;;;
             restore_content (temp_dir_name env) ;;;
             restore_configs cfg (temp_dir_name env) ;;; ret true).
Proof.
  apply preserves_bind; [|intros _; apply preserves_bind;
      [|intros _; apply preserves_bind; [|intros _; apply preserves_ret]]].
  - apply no_config_snapshot.
  - intros s0. apply no_config_same_root; apply restore_content_root.
  - apply no_config_restore_configs.
Qed.

End StagedConfig.

(** Extraction drops the empty, [.] and [..] components of a member name:
    such a member is staged below [config] all the same. *)
Example extract_drops_invalid_parts :
  extract_member ["t"] (["."; "config"; ""; ".."; "config.yaml"], Raw "v1")
    [("t", Dir [])] =
  Ok [("t", Dir [("config", Dir [("config.yaml", File (Raw "v1"))])])].
Proof. reflexivity. Qed.

(** X18. A restore of a compressed archive none of whose members, once the
    empty, [.] and [..] components of its name are dropped as
    [ZipFile.extractall] drops them, lies below a top-level [config]
    directory never changes a configuration file, whatever the answer at
    the prompt and whatever the outcome: the staged tree then has no
    [config] directory, the only place where [restore_backup] looks for
    configuration files. *)
Theorem compressed_restore_keeps_configs (cfg : config) (env : restore_env)
    (backup_name : string) (s : fs) (d : listing) (l : list backup_info)
    (info : backup_info) :
  backup_root s = Some d ->
  list_backups s = Ok l ->
  find (fun b => bi_name b =? backup_name) l = Some info ->
  bi_type info = compressed ->
  lookup (temp_dir_name env) d = None ->
  (forall m, In m (zip_members (lookup (bi_path info) d)) ->
             hd_error (sanitize (fst m)) <> Some "config") ->
  config_store (state_after (restore_backup cfg env backup_name) s) = config_store s.
Proof.
  intros Hd Hlist Hfind T Hfresh Hm.
  unfold state_after, restore_backup. rewrite Hlist, Hfind.
  destruct (negb _); [reflexivity|].
  match goal with
  | |- config_store (snd (?m s)) = _ =>
      change (config_store (state_after m s) = config_store s)
  end.
  set (d1 := set_entry (temp_dir_name env) (Dir []) d).
  assert (Hmk : on_backups (makedirs [temp_dir_name env] true) s =
                (Ok tt, with_backups d1 s)).
  { unfold on_backups. rewrite Hd. cbn [makedirs]. now rewrite Hfresh. }
  rewrite (state_after_bind_Ok _ _ _ _ _ Hmk).
  rewrite state_after_try_finally.
  assert (Hfinal : forall s0,
             config_store (state_after (remove_staging (temp_dir_name env)) s0) =
             config_store s0).
  { intros s0. unfold state_after, remove_staging.
    destruct (backup_root s0) as [d0|] eqn:E; [|reflexivity].
    destruct (exists_path _ d0); [|reflexivity].
    unfold on_backups. rewrite E. now destruct (shutil_rmtree _ d0). }
  rewrite Hfinal.
  assert (H1 : no_staged_config (temp_dir_name env) (config_store s)
                 (with_backups d1 s)).
  { split; [reflexivity|]. exists d1. split; [reflexivity|].
    rewrite lookup_path2. unfold d1. now rewrite lookup_set_entry_eq. }
  assert (H2 : no_staged_config (temp_dir_name env) (config_store s)
                 (state_after (stage info (temp_dir_name env)) (with_backups d1 s))).
  { apply (no_config_stage env (config_store s) info (with_backups d1 s) d1 T
             eq_refl); [|exact H1].
    intros m Hin. apply Hm. unfold d1 in Hin.
    destruct (String.eqb_spec (bi_path info) (temp_dir_name env)) as [E|Hne].
    - rewrite E, lookup_set_entry_eq in Hin. destruct Hin.
    - now rewrite lookup_set_entry_ne in Hin. }
  unfold restore_steps. rewrite state_after_bind.
  destruct (outcome (stage info (temp_dir_name env)) (with_backups d1 s)).
  - now destruct (no_config_rest cfg env (config_store s) _ H2) as [-> _].
  - now destruct H2 as [-> _].
Qed.

Lemma compressed_restore_keeps_configs_witness :
  config_store
    (state_after (restore_backup Scenario.cfg Scenario.renv "backup_20240102_030405")
       Scenario.edited) = config_store Scenario.edited.
Proof.
  apply (compressed_restore_keeps_configs Scenario.cfg Scenario.renv
           "backup_20240102_030405" Scenario.edited Scenario.three_archives_root
           (catalog Scenario.edited)
           (match find (fun b => bi_name b =? "backup_20240102_030405")
                       (catalog Scenario.edited) with
            | Some b => b | None => Scenario.damaged_info end)).
  - reflexivity.
  - reflexivity.
  - reflexivity.
  - reflexivity.
  - reflexivity.
  - intros m Hin. vm_compute in Hin.
    repeat (destruct Hin as [<-|Hin]; [vm_compute; discriminate|]).
    destruct Hin.
Defined.

(** ** Directory form: what is copied *)

Section DirectoryCopy.

Lemma copytree_new_deep (src : option node) (n a : string) (d d' : listing) :
  copytree_new src [n; a] d = Ok d' ->
  exists entries, src = Some (Dir entries) /\
                  lookup_path [n; a] d' = Some (Dir entries).
Proof.
  unfold copytree_new. destruct src as [[f|entries]|]; try discriminate.
  destruct (exists_path [n; a] d); [discriminate|].
  destruct (makedirs [n; a] false d) as [d1|]; [|discriminate].
  cbn [put_node].
  destruct (lookup n d1) as [[g|sub]|]; try discriminate.
  intros [= <-]. exists entries. split; [reflexivity|].
  now rewrite lookup_path2, !lookup_set_entry_eq.
Qed.

Lemma copy2_under (n a base : string) (f : file) (d d' : listing) :
  copy2 base f [n; a] d = Ok d' ->
  forall c, c <> a -> lookup_path [n; c] d' = lookup_path [n; c] d.
Proof.
  unfold copy2. destruct (lookup_path [n; a] d) as [[g|sub]|]; cbn [app];
    apply write_file_under.
Qed.

End DirectoryCopy.

(** X19. In directory form a successful [create_backup] has copied the whole
    content tree into the archive, entry for entry: the exclusion patterns
    are not consulted. *)
Theorem directory_backup_copies_everything (cfg : config) (env : create_env)
    (description : string) (s s' : fs) (id : string) :
  compress cfg = false ->
  create_backup cfg env description s = (Ok id, s') ->
  exists (written : fs) (d : listing) (entries : listing),
    s' = cleanup_old_backups cfg written /\
    backup_root written = Some d /\
    content_root s = Some (Dir entries) /\
    lookup_path [id; "content"] d = Some (Dir entries).
Proof.
  intros Hc H. unfold create_backup in H. rewrite Hc in H.
  apply bind_Ok_inv in H. destruct H as (? & s0 & Hsetup & H).
  apply bind_Ok_inv in H. destruct H as (? & s4 & Hbody & H).
  apply bind_Ok_inv in H. destruct H as (? & s5 & Hclean & Hret).
  injection Hret as <- <-. injection Hclean as _ <-.
  set (id := get_backup_filename (now_name env)) in *.
  assert (Hs0 : content_root s0 = content_root s).
  { rewrite setup_result in Hsetup. apply (f_equal snd) in Hsetup.
    cbn [snd] in Hsetup. now rewrite <- Hsetup. }
  apply bind_Ok_inv in Hbody. destruct Hbody as (? & s1 & Hcopy & Hbody).
  apply bind_Ok_inv in Hbody. destruct Hbody as (? & s2 & Hmk & Hbody).
  apply bind_Ok_inv in Hbody. destruct Hbody as (? & s3 & Hcfg & Hwrite).
  apply on_backups_Ok_inv in Hcopy. destruct Hcopy as (d0 & d1 & Hd0 & Hcopy & ->).
  apply copytree_new_deep in Hcopy. destruct Hcopy as (entries & Hsrc & Hl1).
  apply on_backups_Ok_inv in Hmk. destruct Hmk as (d1' & d2 & Hd1 & Hmk & ->).
  cbn [with_backups backup_root] in Hd1. injection Hd1 as <-.
  assert (Hl2 : lookup_path [id; "content"] d2 = Some (Dir entries)).
  { rewrite (makedirs_under id "config" ["config"] true d1 d2 Hmk); [assumption | |].
    - right. now exists [].
    - discriminate. }
  set (Q := fun s' : fs =>
              exists d', backup_root s' = Some d' /\
                         lookup_path [id; "content"] d' = Some (Dir entries)).
  assert (Hq3 : Q s3).
  { rewrite (run_state _ _ _ _ Hcfg).
    apply (preserves_for_each Q).
    - intros member s6 (d6 & Hd6 & Hl6). unfold state_after, on_backups.
      rewrite Hd6.
      destruct (copy2 _ _ _ d6) as [d7|e] eqn:C; cbn [snd]; [|now exists d6].
      exists d7. split; [reflexivity|].
      rewrite (copy2_under _ _ _ _ _ _ C); [assumption | discriminate].
    - exists d2. now split. }
  destruct Hq3 as (d3 & Hd3 & Hl3).
  apply on_backups_Ok_inv in Hwrite. destruct Hwrite as (d3' & d4 & Hd3' & Hw & ->).
  assert (d3' = d3) by congruence. subst d3'.
  eexists _, d4, entries.
  split; [reflexivity|]. split; [reflexivity|]. split; [congruence|].
  rewrite (write_file_under _ _ _ _ _ _ Hw); [assumption | discriminate].
Qed.

Lemma directory_backup_copies_everything_witness :
  exists (written : fs) (d : listing) (entries : listing),
    Scenario.dir_archive = cleanup_old_backups Scenario.cfg_dir written /\
    backup_root written = Some d /\
    content_root Scenario.fresh = Some (Dir entries) /\
    lookup_path ["backup_20240102_030405"; "content"] d = Some (Dir entries).
Proof.
  apply (directory_backup_copies_everything Scenario.cfg_dir
           (Scenario.env_at (Scenario.at_second 5 0) 1000000) "a"
           Scenario.fresh Scenario.dir_archive "backup_20240102_030405").
  - reflexivity.
  - reflexivity.
Defined.

(** ** Directory form: restore *)

Section MergeFresh.




End MergeFresh.

Section ConfigStore.










End ConfigStore.



(** ** Restore and the listing *)

Section RestoreKeepsListing.

(** An element of the scan is read again from any directory that agrees
    with the first one at the entry and, for a compressed archive, at the
    sidecar. *)
Lemma scan_transfer (d d' : listing) (b : backup_info) :
  unique_names d ->
  In b (scan d) ->
  lookup (bi_path b) d' = lookup (bi_path b) d ->
  (bi_type b = compressed ->
   lookup (sidecar_of (bi_name b)) d' = lookup (sidecar_of (bi_name b)) d) ->
  In b (scan d').
Proof.
  intros Hu Hb Hp Hs. apply In_scan in Hb. destruct Hb as (x & Hin & Hitem).
  apply (In_lookup _ _ _ Hu) in Hin.
  apply In_scan. exists x. split; [apply lookup_In; congruence|].
  destruct (bi_type b) eqn:T.
  - destruct (scan_item_compressed _ _ _ _ Hitem T) as (_ & Hn & _).
    rewrite <- Hitem. unfold scan_item.
    destruct (Str.endswith (bi_path b) ".zip") eqn:E.
    + assert (Hbase : Str.drop_last 4 (bi_path b) = bi_name b).
      { rewrite Hn. assert (D := drop_last_append (bi_name b) ".zip").
        cbn [String.length] in D. exact D. }
      rewrite Hbase. now rewrite (Hs eq_refl).
    + reflexivity.
  - rewrite <- Hitem. unfold scan_item.
    destruct (scan_item_directory _ _ _ _ Hitem T) as (_ & _ & Hz & _).
    now rewrite Hz.
Qed.

End RestoreKeepsListing.

(** X21. A restore never unlists an archive: when the names of the staging
    directory and of the pre-restore copy are fresh, every archive listed
    before [restore_backup] is still read from the backup root afterwards,
    whatever the outcome of the call, and is an element of the next listing
    whenever that listing returns. *)
Theorem restore_keeps_archives_listed (cfg : config) (env : restore_env)
    (backup_name : string) (s : fs) (d : listing) (l : list backup_info) :
  backup_root s = Some d ->
  root_ok s = true ->
  list_backups s = Ok l ->
  lookup (temp_dir_name env) d = None ->
  lookup (snapshot_name env) d = None ->
  exists d',
    backup_root (state_after (restore_backup cfg env backup_name) s) = Some d' /\
    (forall b, In b l -> In b (scan d')) /\
    (forall l', list_backups (state_after (restore_backup cfg env backup_name) s) = Ok l' ->
                forall b, In b l -> In b l').
Proof.
  intros Hd Hok Hlist Htemp Hsnap.
  assert (Hu := root_ok_unique s d Hok Hd).
  destruct (restore_outside cfg env backup_name s d Hd) as (d' & Hd' & Hl).
  exists d'. split; [assumption|].
  assert (Hscan : forall b, In b l -> In b (scan d')).
  { intros b Hb. apply (listed_iff s d l Hd Hlist) in Hb.
    assert (Hfresh : forall n x, lookup n d = Some x ->
                       lookup n d' = lookup n d).
    { intros n x Hn. apply Hl. intros [E|[E|[]]]; subst n; congruence. }
    assert (Hb' := Hb). apply In_scan in Hb'. destruct Hb' as (x & Hin & Hitem).
    apply (In_lookup _ _ _ Hu) in Hin.
    apply (scan_transfer d d' b Hu Hb); [now apply (Hfresh _ x)|].
    intros T.
    destruct (scan_item_compressed _ _ _ _ Hitem T) as (_ & _ & len & Hside).
    now apply (Hfresh _ _ Hside). }
  split; [exact Hscan|].
  intros l' Hl' b Hb. apply (listed_iff _ d' l' Hd' Hl'). now apply Hscan.
Qed.

Lemma restore_keeps_archives_listed_witness :
  exists d',
    backup_root (state_after
                   (restore_backup Scenario.cfg Scenario.renv "backup_20240102_030405")
                   Scenario.edited) = Some d' /\
    (forall b, In b (catalog Scenario.edited) -> In b (scan d')) /\
    (forall l',
       list_backups (state_after
                       (restore_backup Scenario.cfg Scenario.renv
                          "backup_20240102_030405")
                       Scenario.edited) = Ok l' ->
       forall b, In b (catalog Scenario.edited) -> In b l').
Proof.
  apply (restore_keeps_archives_listed Scenario.cfg Scenario.renv
           "backup_20240102_030405" Scenario.edited Scenario.three_archives_root
           (catalog Scenario.edited)); reflexivity.
Defined.
